(** * FX covered-interest-parity dashboard: pricing, signals, PnL, backtest

    A shallow embedding of the computational core of the repository
    ([cip.py], [optimize.py], [backtest.py], [app.py]) and the properties
    its specification states about it.

    Numbers.  The Python code is duck-typed over its numeric operands, so the
    pricing functions of [cip.py] are written once over an interface
    [PyFloat] and read at two instances:
    - [Q]: exact rational arithmetic (what [fractions.Fraction] operands
      give, and the idealisation of [float] without rounding);
    - primitive [float]: IEEE-754 binary64 with round-to-nearest-even, the
      arithmetic of a CPython [float].
    The pandas drivers are embedded over exact rationals extended with the
    two infinities and NaN, the values a float64 column can hold. *)

From Stdlib Require Import ZArith QArith Qabs Lqa Lia List Bool String.
From Stdlib Require Import PrimFloat SpecFloat FloatOps.
Import ListNotations.

(** ** Python exceptions and the result of a call *)

(** An exception is identified by the name of its class. *)
Definition exn : Type := string.

Definition ZeroDivisionError : exn := "ZeroDivisionError"%string.
Definition OverflowError : exn := "OverflowError"%string.

(** The class the specification names for a zero CIP denominator; no class
    of that name is defined or raised anywhere in the repository. *)
Definition InvalidRateError : exn := "InvalidRateError"%string.

Inductive result (A : Type) : Type :=
| Return (a : A)
| Raise (e : exn).

Arguments Return {A} a.
Arguments Raise {A} e.

Definition bind {A B : Type} (m : result A) (k : A -> result B) : result B :=
  match m with
  | Return a => k a
  | Raise e => Raise e
  end.

Declare Scope py_scope.
Delimit Scope py_scope with py.
Notation "x <- m ;; k" := (bind m (fun x => k))
  (at level 61, m at next level, right associativity) : py_scope.

Definition returns {A : Type} (m : result A) : Prop := exists a, m = Return a.
Definition raises {A : Type} (m : result A) (e : exn) : Prop := m = Raise e.

Fixpoint mapM {A B : Type} (f : A -> result B) (l : list A) : result (list B) :=
  match l with
  | [] => Return []
  | x :: r =>
      (y <- f x ;;
       ys <- mapM f r ;;
       Return (y :: ys))%py
  end.

(** ** The arithmetic interface of a Python float operand *)

Class PyFloat (F : Type) : Type := {
  (** [float(n)] for an [int] operand of mixed arithmetic: its value ... *)
  of_int : Z -> F;
  (** ... and whether the conversion succeeds ([OverflowError] otherwise). *)
  int_fits : Z -> bool;
  fadd : F -> F -> F;
  fsub : F -> F -> F;
  fmul : F -> F -> F;
  (** the quotient, used once the divisor has been tested against zero *)
  fdiv : F -> F -> F;
  (** [==] and [<] *)
  feqb : F -> F -> bool;
  fltb : F -> F -> bool;
  (** the literal [360] is not zero *)
  lit_360_nonzero : feqb (of_int 360) (of_int 0) = false
}.

Declare Scope pyfloat_scope.
Delimit Scope pyfloat_scope with pf.
Infix "+" := fadd : pyfloat_scope.
Infix "-" := fsub : pyfloat_scope.
Infix "*" := fmul : pyfloat_scope.
Infix "/" := fdiv : pyfloat_scope.
Infix "=?" := feqb : pyfloat_scope.
Infix "<?" := fltb : pyfloat_scope.

(** Exact rationals: every integer converts, [==] is equality of fractions. *)
#[export] Instance Q_PyFloat : PyFloat Q := {
  of_int := inject_Z;
  int_fits := fun _ => true;
  fadd := Qplus;
  fsub := Qminus;
  fmul := Qmult;
  fdiv := Qdiv;
  feqb := Qeq_bool;
  fltb := fun x y => negb (Qle_bool y x);
  lit_360_nonzero := eq_refl
}.

(** binary64.  [float(n)] rounds [n] to the nearest double, ties to even, and
    raises [OverflowError] when that is not finite. *)
Definition binary64_of_int (n : Z) : float :=
  SF2Prim (binary_normalize prec emax n 0 false).

#[export] Instance binary64_PyFloat : PyFloat float := {
  of_int := binary64_of_int;
  int_fits := fun n => negb (PrimFloat.is_infinity (binary64_of_int n));
  fadd := PrimFloat.add;
  fsub := PrimFloat.sub;
  fmul := PrimFloat.mul;
  fdiv := PrimFloat.div;
  feqb := PrimFloat.eqb;
  fltb := PrimFloat.ltb;
  lit_360_nonzero := eq_refl
}.

(** ** cip.py *)

Section Cip.

Context {F : Type} `{PyFloat F}.

Local Open Scope pyfloat_scope.
Local Open Scope py_scope.

(** [float(n)] *)
Definition to_float (n : Z) : result F :=
  if int_fits n then Return (of_int n) else Raise OverflowError.

(** [a / b] on floats: [ZeroDivisionError] when [b == 0.0]. *)
Definition truediv (a b : F) : result F :=
  if b =? of_int 0 then Raise ZeroDivisionError else Return (a / b).

(** [x * n] with [n] an [int] *)
Definition mul_int (x : F) (n : Z) : result F :=
  t <- to_float n ;; Return (x * t).

(** [return spot * (1 + r_dom * tenor_days / 360) / (1 + r_for * tenor_days / 360)] *)
Definition theoretical_forward (spot r_dom r_for : F) (tenor_days : Z) : result F :=
  a <- mul_int r_dom tenor_days ;;
  a <- truediv a (of_int 360) ;;
  let num := spot * (of_int 1 + a) in
  b <- mul_int r_for tenor_days ;;
  b <- truediv b (of_int 360) ;;
  truediv num (of_int 1 + b).

(** [return (obs_fwd - theo_fwd) / theo_fwd * 10_000] *)
Definition deviation_bps (obs_fwd theo_fwd : F) : result F :=
  q <- truediv (obs_fwd - theo_fwd) theo_fwd ;;
  Return (q * of_int 10000).

(** The two factors of the forward, as the formula writes them. *)
Definition dom_factor (r_dom : F) (tenor_days : Z) : F :=
  of_int 1 + r_dom * of_int tenor_days / of_int 360.

Definition for_factor (r_for : F) (tenor_days : Z) : F :=
  of_int 1 + r_for * of_int tenor_days / of_int 360.

End Cip.

(** ** float64 column values

    What a pandas float64 column holds: a finite number (here exact), one of
    the two infinities, or NaN, which pandas also reads as a missing value.
    Column arithmetic never raises: a division by zero gives an infinity or
    NaN, and every comparison with NaN is false. *)

Inductive cell : Type :=
| Fin (q : Q)
| PInf
| NInf
| NaN.

Definition cell_sign (c : cell) : comparison :=
  match c with
  | Fin q => q ?= 0
  | PInf => Gt
  | NInf => Lt
  | NaN => Eq
  end.

Definition is_nan (c : cell) : bool :=
  match c with
  | NaN => true
  | _ => false
  end.

Definition copp (c : cell) : cell :=
  match c with
  | Fin q => Fin (- q)
  | PInf => NInf
  | NInf => PInf
  | NaN => NaN
  end.

Definition cadd (a b : cell) : cell :=
  match a, b with
  | NaN, _ | _, NaN => NaN
  | Fin x, Fin y => Fin (x + y)
  | PInf, NInf | NInf, PInf => NaN
  | PInf, _ | _, PInf => PInf
  | NInf, _ | _, NInf => NInf
  end.

Definition csub (a b : cell) : cell := cadd a (copp b).

(** The product or quotient of two signs, for a result that is infinite. *)
Definition inf_of_signs (sa sb : comparison) : cell :=
  match sa, sb with
  | Eq, _ | _, Eq => NaN
  | Gt, Gt | Lt, Lt => PInf
  | _, _ => NInf
  end.

Definition cmul (a b : cell) : cell :=
  match a, b with
  | NaN, _ | _, NaN => NaN
  | Fin x, Fin y => Fin (x * y)
  | _, _ => inf_of_signs (cell_sign a) (cell_sign b)
  end.

Definition cdiv (a b : cell) : cell :=
  match a, b with
  | NaN, _ | _, NaN => NaN
  | Fin x, Fin y =>
      if Qeq_bool y 0 then inf_of_signs (x ?= 0) Gt else Fin (x / y)
  | Fin _, _ => Fin 0
  | _, Fin y => inf_of_signs (cell_sign a) (if Qle_bool 0 y then Gt else Lt)
  | _, _ => NaN
  end.

(** [a < b] and [a > b] *)
Definition cltb (a b : cell) : bool :=
  match a, b with
  | NaN, _ | _, NaN => false
  | Fin x, Fin y => negb (Qle_bool y x)
  | NInf, NInf | PInf, _ | _, NInf => false
  | _, _ => true
  end.

Definition cgtb (a b : cell) : bool := cltb b a.

(** Equality of column values as numbers (fractions up to [==]). *)
Definition ceq (a b : cell) : Prop :=
  match a, b with
  | Fin x, Fin y => x == y
  | PInf, PInf | NInf, NInf | NaN, NaN => True
  | _, _ => False
  end.

(** [a <= b] as a proposition, false when either side is NaN. *)
Definition cle (a b : cell) : Prop :=
  match a, b with
  | NaN, _ | _, NaN => False
  | Fin x, Fin y => x <= y
  | NInf, _ | _, PInf => True
  | _, _ => False
  end.

(** A cast of an int64 column value to float64. *)
Definition of_int64 (n : Z) : cell := Fin (inject_Z n).

(** *** Series operations *)

(** A series as the fetchers build it: (date, value) pairs, dates as day
    numbers, one entry per date. *)
Definition series : Type := list (Z * Q).

Fixpoint lookup (d : Z) (s : series) : cell :=
  match s with
  | [] => NaN
  | (d', v) :: r => if (d =? d')%Z then Fin v else lookup d r
  end.

(** [s.reindex(index)]: the value at each date of [index], NaN where [s]
    has none. *)
Definition reindex (s : series) (index : list Z) : list cell :=
  map (fun d => lookup d s) index.

(** [.fillna(method="ffill")]: a NaN takes the last value before it. *)
Fixpoint ffill_from (last : cell) (col : list cell) : list cell :=
  match col with
  | [] => []
  | c :: r =>
      let v := if is_nan c then last else c in
      v :: ffill_from v r
  end.

Definition ffill (col : list cell) : list cell := ffill_from NaN col.

(** [col.shift(periods)]: row [i] takes the value of row [i - periods], NaN
    when there is no such row. *)
Definition shift (periods : Z) (col : list cell) : list cell :=
  map (fun i =>
         let j := (Z.of_nat i - periods)%Z in
         if (j <? 0)%Z then NaN else nth (Z.to_nat j) col NaN)
      (seq 0 (List.length col)).

(** ** optimize.py and backtest.py: the backtest over a historical series *)

(** The signal column of [run_backtest] ([optimize.py]):
    [df["signal"] = 0], then [-1] where [dev_bps > threshold_bps], then [+1]
    where [dev_bps < -threshold_bps]; the second assignment is made after
    the first. *)
Definition assign_signal (threshold_bps : Q) (dev_bps : cell) : Z :=
  let signal := 0%Z in
  let signal := if cgtb dev_bps (Fin threshold_bps) then (-1)%Z else signal in
  let signal := if cltb dev_bps (Fin (- threshold_bps)) then 1%Z else signal in
  signal.

(** The signal column of [backtest] ([backtest.py]): the comparisons are with
    the literal [0]; the function has no threshold parameter. *)
Definition backtest_signal (dev_bps : cell) : Z :=
  let signal := 0%Z in
  let signal := if cgtb dev_bps (of_int64 0) then (-1)%Z else signal in
  let signal := if cltb dev_bps (of_int64 0) then 1%Z else signal in
  signal.

(** [df.loc[df["pnl"] < -stop_amt, "pnl"] = -stop_amt] *)
Definition stop_loss (stop_amt : Q) (pnl : cell) : cell :=
  if cltb pnl (Fin (- stop_amt)) then Fin (- stop_amt) else pnl.

(** [df["raw_pnl"] = df["signal"] * (df["exit_spot"] - df["obs_fwd"]) * notional] *)
Definition raw_pnl_of (signal : Z) (exit_spot obs_fwd : cell) (notional : Q) : cell :=
  cmul (cmul (of_int64 signal) (csub exit_spot obs_fwd)) (Fin notional).

(** [df["pnl"] = df["raw_pnl"] - df["signal"].abs() * cost], before the stop *)
Definition net_pnl_of (signal : Z) (raw_pnl : cell) (cost : Q) : cell :=
  csub raw_pnl (cmul (of_int64 (Z.abs signal)) (Fin cost)).

(** The PnL column of one row, with [cost = spread_bps / 10_000 * notional]
    and [stop_amt = stop_loss_bps / 10_000 * notional]. *)
Definition estimate_pnl (signal : Z) (obs_fwd exit_spot : cell)
    (notional spread_bps stop_loss_bps : Q) : cell :=
  let cost := spread_bps / 10000 * notional in
  let raw_pnl := raw_pnl_of signal exit_spot obs_fwd notional in
  let pnl := net_pnl_of signal raw_pnl cost in
  let stop_amt := stop_loss_bps / 10000 * notional in
  stop_loss stop_amt pnl.

Module Df.

(** One row of the data frame [df], a field per column. *)
Record row : Type := {
  date : Z;
  spot : cell;
  swap_pts : cell;
  theo_fwd : cell;
  obs_fwd : cell;
  dev_bps : cell;
  signal : Z;
  exit_spot : cell;
  raw_pnl : cell;
  pnl : cell
}.

End Df.

(** The parameters the two drivers share. *)
Record params : Type := {
  tenor_days : Z;
  r_dom : Q;
  r_for : Q;
  notional : Q;
  spread_bps : Q;
  stop_loss_bps : Q
}.

(** The defaults of [run_backtest] and [backtest]. *)
Definition default_params (spread_bps stop_loss_bps : Q) : params :=
  {| tenor_days := 30; r_dom := 25 # 1000; r_for := 5 # 1000;
     notional := 1000000; spread_bps := spread_bps;
     stop_loss_bps := stop_loss_bps |}.

(** The columns of one row from its date, spot, forward-filled swap points,
    theoretical forward and shifted spot; [sig] is the signal rule. *)
Definition make_row (sig : cell -> Z) (p : params)
    (d : Z) (s : Q) (sw : cell) (theo : Q) (ex : cell) : Df.row :=
  let obs := cadd (Fin s) (cdiv (cmul sw (of_int64 (tenor_days p))) (of_int64 360)) in
  let dev := cmul (cdiv (csub obs (Fin theo)) (Fin theo)) (of_int64 10000) in
  let sg := sig dev in
  {| Df.date := d; Df.spot := Fin s; Df.swap_pts := sw; Df.theo_fwd := Fin theo;
     Df.obs_fwd := obs; Df.dev_bps := dev; Df.signal := sg; Df.exit_spot := ex;
     Df.raw_pnl := raw_pnl_of sg ex obs (notional p);
     Df.pnl := estimate_pnl sg obs ex (notional p) (spread_bps p) (stop_loss_bps p) |}.

Fixpoint make_rows (sig : cell -> Z) (p : params)
    (spot : series) (swap : list cell) (theo_fwd : list Q) (exit_spot : list cell)
    {struct spot} : list Df.row :=
  match spot, swap, theo_fwd, exit_spot with
  | (d, s) :: spot', sw :: swap', theo :: theo', ex :: exit' =>
      make_row sig p d s sw theo ex :: make_rows sig p spot' swap' theo' exit'
  | _, _, _, _ => []
  end.

(** The data frame after the column assignments.  [theoretical_forward] is
    applied to each spot by a Python lambda, so its exception ends the run;
    the column operations raise nothing. *)
Definition build_frame (sig : cell -> Z) (p : params)
    (spot swap_pts : series) : result (list Df.row) :=
  (theo <- mapM (fun ds => theoretical_forward (snd ds) (r_dom p) (r_for p)
                             (tenor_days p)) spot ;;
   let index := map fst spot in
   let swap := ffill (reindex swap_pts index) in
   let exit_spot := shift (- tenor_days p) (map (fun ds => Fin (snd ds)) spot) in
   Return (make_rows sig p spot swap theo exit_spot))%py.

(** [trades = df.dropna(subset=["pnl"])] *)
Definition dropna_pnl (df : list Df.row) : list Df.row :=
  filter (fun r => negb (is_nan (Df.pnl r))) df.

Definition count_rows (f : Df.row -> bool) (rows : list Df.row) : nat :=
  List.length (filter f rows).

(** [(trades["signal"] != 0)] and [trades["pnl"].gt(0)] *)
Definition is_trade (r : Df.row) : bool := negb (Df.signal r =? 0)%Z.
Definition is_win (r : Df.row) : bool := cgtb (Df.pnl r) (of_int64 0).

Definition csum (col : list cell) : cell := fold_left cadd col (Fin 0).

(** The mean of a column with no NaN in it. *)
Definition cmean (col : list cell) : cell :=
  cdiv (csum col) (of_int64 (Z.of_nat (List.length col))).

(** The entries of the result that the properties below are about;
    [max_drawdown] is not modelled. *)
Record metrics : Type := {
  total_pnl : cell;
  num_trades : nat;
  win_rate : Q;
  avg_pnl : cell
}.

(** [win_rate = trades["pnl"].gt(0).mean() * 100 if num_trades else 0] *)
Definition win_rate_of (trades : list Df.row) : Q :=
  if (count_rows is_trade trades =? 0)%nat then 0
  else inject_Z (Z.of_nat (count_rows is_win trades))
       / inject_Z (Z.of_nat (List.length trades)) * 100.

Definition summarize (trades : list Df.row) : metrics :=
  let n := count_rows is_trade trades in
  {| total_pnl := csum (map Df.pnl trades);
     num_trades := n;
     win_rate := win_rate_of trades;
     avg_pnl := if (n =? 0)%nat then of_int64 0 else cmean (map Df.pnl trades) |}.

(** [run_backtest(spot, swap_pts, threshold_bps, stop_loss_bps, spread_bps,
    tenor_days, r_dom, r_for, notional)] of [optimize.py] *)
Definition run_backtest (spot swap_pts : series) (threshold_bps : Q)
    (p : params) : result metrics :=
  (df <- build_frame (assign_signal threshold_bps) p spot swap_pts ;;
   Return (summarize (dropna_pnl df)))%py.

(** [backtest(pair, tenor_days, r_dom, r_for, notional, spread_bps,
    stop_loss_bps, history_days)] of [backtest.py], on the two series it
    fetched; the result is what it prints. *)
Definition backtest (spot swap_pts : series) (p : params) : result metrics :=
  (df <- build_frame backtest_signal p spot swap_pts ;;
   Return (summarize (dropna_pnl df)))%py.

(** [df] is the data frame of a run of one of the two drivers with the
    parameters [p]. *)
Definition driver_frame (p : params) (df : list Df.row) : Prop :=
  (exists spot swap_pts threshold_bps,
      build_frame (assign_signal threshold_bps) p spot swap_pts = Return df)
  \/ (exists spot swap_pts,
         build_frame backtest_signal p spot swap_pts = Return df).

(** A three-day history for the examples: the spot stays at 100; the swap
    points put the one-day forward at 99 on day 0 and at 100 afterwards.
    With a one-day tenor and both rates at zero the theoretical forward is
    the spot, so day 0 is a Buy that wins, day 1 is no action, and day 2 has
    no exit price. *)
Definition example_spot : series := [(0%Z, 100); (1%Z, 100); (2%Z, 100)].
Definition example_swap_pts : series := [(0%Z, - (360)); (1%Z, 0); (2%Z, 0)].
Definition example_params : params :=
  {| tenor_days := 1; r_dom := 0; r_for := 0; notional := 1000000;
     spread_bps := 1 # 2; stop_loss_bps := 5 |}.

(** The frame [run_backtest] builds from the example with a threshold of
    one basis point. *)
Definition example_frame : list Df.row :=
  Eval vm_compute in
    match build_frame (assign_signal 1) example_params example_spot
            example_swap_pts with
    | Return df => df
    | Raise _ => []
    end.

(** What [run_backtest] returns for the example. *)
Definition example_metrics : metrics :=
  Eval vm_compute in
    match run_backtest example_spot example_swap_pts 1 example_params with
    | Return m => m
    | Raise _ => summarize []
    end.

(** The win rate as the specification words it: the fraction, among the rows
    with a nonzero signal, of those whose PnL is positive. *)
Definition spec_win_fraction (trades : list Df.row) : Q :=
  inject_Z (Z.of_nat (count_rows (fun r => is_trade r && is_win r) trades))
  / inject_Z (Z.of_nat (count_rows is_trade trades)).

(** ** app.py: the dashboard's computation for one pair *)

Inductive provider : Type :=
| Manual
| Swap_Points.

(** The three labels of [sig]: "Rich -> Sell forward", "Cheap -> Buy forward"
    and "No arbitrage". *)
Inductive sig_label : Type :=
| Rich_Sell_forward
| Cheap_Buy_forward
| No_arbitrage.

(** [if dev_bps > threshold_bps: ... elif dev_bps < -threshold_bps: ... else: ...] *)
Definition classify (dev_bps threshold_bps : Q) : sig_label :=
  if fltb threshold_bps dev_bps then Rich_Sell_forward
  else if fltb dev_bps (- threshold_bps) then Cheap_Buy_forward
  else No_arbitrage.

(** The "PnL calculation" block; the notional is the literal [1_000_000]. *)
Definition dashboard_pnl (obs_fwd theo_fwd spread_bps stop_loss_bps : Q) : Q :=
  let cost := spread_bps / 10000 * 1000000 in
  let raw_pnl := (obs_fwd - theo_fwd) * 1000000 in
  let pnl := raw_pnl - cost in
  let stop_amt := stop_loss_bps / 10000 * 1000000 in
  if fltb pnl (- stop_amt) then - stop_amt else pnl.

(** The sidebar settings the loop over the pairs reads. *)
Record settings : Type := {
  override_provider : provider;
  manual_bps : Q;
  dash_threshold_bps : Q;
  dash_stop_loss_bps : Q;
  dash_spread_bps : Q;
  dash_tenor_days : Z
}.

Record dashboard_row : Type := {
  row_obs_fwd : Q;
  row_theo_fwd : Q;
  row_dev_bps : Q;
  row_sig : sig_label;
  row_pnl : Q
}.

(** One turn of [for pair in pairs], from the fetched spot mid and swap
    point; the rates are the literals [0.025] and [0.005]. *)
Definition dashboard_pair (st : settings) (spot_mid swap_pts : Q) : result dashboard_row :=
  (theo_fwd <- theoretical_forward spot_mid (25 # 1000) (5 # 1000) (dash_tenor_days st) ;;
   let obs_fwd :=
     match override_provider st with
     | Manual => theo_fwd * (1 + manual_bps st / 10000)
     | Swap_Points => spot_mid + swap_pts * inject_Z (dash_tenor_days st) / 360
     end in
   dev_bps <- deviation_bps obs_fwd theo_fwd ;;
   Return {| row_obs_fwd := obs_fwd; row_theo_fwd := theo_fwd;
             row_dev_bps := dev_bps;
             row_sig := classify dev_bps (dash_threshold_bps st);
             row_pnl := dashboard_pnl obs_fwd theo_fwd (dash_spread_bps st)
                          (dash_stop_loss_bps st) |})%py.

(** Settings for the examples: a manual forward half a basis point above
    the theoretical one, against a threshold of one basis point. *)
Definition example_settings : settings :=
  {| override_provider := Manual; manual_bps := 1 # 2;
     dash_threshold_bps := 1; dash_stop_loss_bps := 2;
     dash_spread_bps := 1 # 10; dash_tenor_days := 30 |}.

(** ** app.py: the path simulator

    [simulate_pnl] draws from the module-level generator of Python's
    [random]; the generator's state is threaded explicitly.  A state is
    taken as the sequence of values its coming [random()] calls return. *)

Definition rng : Type := nat -> Q.

(** A computation on the generator's state. *)
Definition rand (A : Type) : Type := rng -> A * rng.

(** [random.random()] *)
Definition random : rand Q := fun g => (g 0%nat, fun n => g (S n)).

(** [random.uniform(a, b)]: the library computes [a + (b - a) * random()]. *)
Definition uniform (a b : Q) : rand Q :=
  fun g => let (u, g') := random g in (a + (b - a) * u, g').

(** The inner loop [for _ in range(days)]: the rows of one path. *)
Fixpoint simulate_path (days : nat) (path obs_fwd : Q) : rand (list Q) :=
  fun g =>
    match days with
    | O => ([], g)
    | S days' =>
        let (shock, g1) := uniform (- (5 # 1000)) (5 # 1000) g in
        let path := path * (1 + shock) in
        let (daily, g2) := simulate_path days' path obs_fwd g1 in
        (1000000 * (path - obs_fwd) :: daily, g2)
    end.

(** The outer loop [for _ in range(sims)]. *)
Fixpoint simulate_runs (sims days : nat) (spot0 obs_fwd : Q) : rand (list (list Q)) :=
  fun g =>
    match sims with
    | O => ([], g)
    | S sims' =>
        let (daily, g1) := simulate_path days spot0 obs_fwd g in
        let (pnls, g2) := simulate_runs sims' days spot0 obs_fwd g1 in
        (daily :: pnls, g2)
    end.

(** [simulate_pnl(spot0, obs_fwd, days, sims=500)]: these four are all its
    parameters; [range] of a non-positive count is empty. *)
Definition simulate_pnl (spot0 obs_fwd : Q) (days sims : Z) : rand (list (list Q)) :=
  simulate_runs (Z.to_nat sims) (Z.to_nat days) spot0 obs_fwd.

(** What a caller runs who wants a reproducible matrix (no code of the
    repository does): [random.seed(s)] followed by [simulate_pnl(...)].
    [seed] is the library's initialisation of the state from a seed; the
    state the generator was in before is overwritten. *)
Definition seeded_simulate_pnl (seed : Z -> rng) (s : Z)
    (spot0 obs_fwd : Q) (days sims : Z) : rand (list (list Q)) :=
  fun _ => simulate_pnl spot0 obs_fwd days sims (seed s).

(** A generator state for the examples: its draws are 0, 0.1, ..., 0.9 and
    then the same again. *)
Definition example_rng : rng := fun n => inject_Z (Z.of_nat (n mod 10)) / 10.

(** * The rest of the computational code *)

From Stdlib Require Import Qpower Sorted.

(** ** simulate_forward.py: the alert of the noise loop *)

(** The two directions an alert names: "Sell forward / Buy spot" and
    "Buy forward / Sell spot". *)
Inductive direction : Type :=
| Sell_forward_Buy_spot
| Buy_forward_Sell_spot.

(** [if abs(dev) > threshold_bps:] with
    [direction = "Sell forward / Buy spot" if dev > 0 else "Buy forward / Sell spot"];
    no alert otherwise. *)
Definition arb_signal (dev threshold_bps : Q) : option direction :=
  if fltb threshold_bps (Qabs dev)
  then Some (if fltb 0 dev then Sell_forward_Buy_spot else Buy_forward_Sell_spot)
  else None.

(** One trial of the loop: [obs_fwd = theo_fwd * (1 + noise_bps / 10_000)]
    and [dev = deviation_bps(obs_fwd, theo_fwd)]. *)
Definition noisy_deviation (theo_fwd noise_bps : Q) : result Q :=
  deviation_bps (theo_fwd * (1 + noise_bps / 10000)) theo_fwd.

(** ** risk.py *)

(** [return [notional * (s - obs_forward) for s in spot_series]] *)
Definition pnl_path (spot_series : list Q) (obs_forward notional : Q) : list Q :=
  map (fun s => notional * (s - obs_forward)) spot_series.

(** [np.diff(a)]: the entries [a[i+1] - a[i]]. *)
Fixpoint np_diff (a : list Q) : list Q :=
  match a with
  | x :: (y :: _) as r => (y - x) :: np_diff r
  | _ => []
  end.

(** ** app.py: the histories kept in the session state *)

Definition KeyError : exn := "KeyError"%string.

(** [hist.append(x)], then [hist.pop(0)] if [len(hist) > 50]. *)
Definition history_append (hist : list Q) (x : Q) : list Q :=
  let hist := hist ++ [x] in
  if (50 <? List.length hist)%nat then tl hist else hist.

(** [st.session_state.history]: a dict from pair names to lists, as the
    (key, value) pairs in insertion order. *)
Definition session_history : Type := list (string * list Q).

(** [{pair: [] for pair in pairs}] *)
Definition init_history (pairs : list string) : session_history :=
  map (fun pair => (pair, [])) pairs.

(** [history[pair]]: [KeyError] for a pair that is no key. *)
Fixpoint history_get (h : session_history) (pair : string) : result (list Q) :=
  match h with
  | [] => Raise KeyError
  | (k, hist) :: r =>
      if String.eqb pair k then Return hist else history_get r pair
  end.

(** [history[pair] = hist] for a pair that is a key. *)
Fixpoint history_set (h : session_history) (pair : string) (hist : list Q)
  : session_history :=
  match h with
  | [] => [(pair, hist)]
  | (k, old) :: r =>
      if String.eqb pair k then (k, hist) :: r
      else (k, old) :: history_set r pair hist
  end.

(** The "update histories" step of the loop over the pairs, for one of the
    two histories:
    [hist = st.session_state.history[pair]; hist.append(dev_bps);
     if len(hist) > 50: hist.pop(0); st.session_state.history[pair] = hist]. *)
Definition record_history (h : session_history) (pair : string) (x : Q)
  : result session_history :=
  (hist <- history_get h pair ;;
   Return (history_set h pair (history_append hist x)))%py.

(** ** app.py: the spot path under [simulate_pnl]

    The values the local [path] takes in one run of the inner loop. *)
Fixpoint random_walk (days : nat) (path : Q) : rand (list Q) :=
  fun g =>
    match days with
    | O => ([], g)
    | S days' =>
        let (shock, g1) := uniform (- (5 # 1000)) (5 # 1000) g in
        let path := path * (1 + shock) in
        let (rest, g2) := random_walk days' path g1 in
        (path :: rest, g2)
    end.

(** ** optimize.py: the parameter sweep *)

(** [itertools.product(thresholds, stop_losses, spreads)] *)
Definition product3 (thresholds stop_losses spreads : list Q) : list (Q * Q * Q) :=
  flat_map (fun th =>
              flat_map (fun sl => map (fun sp => (th, sl, sp)) spreads)
                       stop_losses)
           thresholds.

(** One entry of [results]: the three parameters and the metrics. *)
Definition sweep_row : Type := (Q * Q * Q * metrics)%type.

(** [m = run_backtest(spot, swap_pts, th, sl, sp, tenor_days)] with
    [tenor_days = 30] and the other defaults, appended with its parameters. *)
Definition sweep_entry (spot swap_pts : series) (c : Q * Q * Q) : result sweep_row :=
  let '(th, sl, sp) := c in
  (m <- run_backtest spot swap_pts th (default_params sp sl) ;;
   Return (th, sl, sp, m))%py.

(** The loop of the main block over the grid. *)
Definition sweep (spot swap_pts : series)
    (thresholds stop_losses spreads : list Q) : result (list sweep_row) :=
  mapM (sweep_entry spot swap_pts) (product3 thresholds stop_losses spreads).

(** ** backtest.py and optimize.py: the fallback of [fetch_swap_history]

    [pd.Series(0.0, index=spot.index)]: zero on every date of the spot
    history. *)
Definition zero_series (index : list Z) : series :=
  map (fun d => (d, 0)) index.

(** ** backtest.py and optimize.py: the series the fetchers build

    The request and the reading of time stamps and numbers are outside the
    model: a fetcher starts from the entries of the response, each with the
    date of its time stamp and its numbers. *)
Record candle : Type := {
  candle_date : Z;
  mid_o : Q;
  mid_c : Q
}.

(** An entry of ["swapRates"]; a rate may be absent from it. *)
Record swap_rate : Type := {
  swap_date : Z;
  longRate : option Q;
  shortRate : option Q
}.

(** [{d: s for d, s in records}]: a later record with a date that is
    already a key replaces the value and keeps the key's place. *)
Fixpoint dict_set (d : Z) (v : Q) (s : series) : series :=
  match s with
  | [] => [(d, v)]
  | (d', v') :: r =>
      if (d =? d')%Z then (d, v) :: r else (d', v') :: dict_set d v r
  end.

Definition dict_of (records : list (Z * Q)) : series :=
  fold_left (fun acc r => dict_set (fst r) (snd r) acc) records [].

(** [.sort_index()] *)
Fixpoint insert_sorted (d : Z) (v : Q) (s : series) : series :=
  match s with
  | [] => [(d, v)]
  | (d', v') :: r =>
      if (d <=? d')%Z then (d, v) :: s else (d', v') :: insert_sorted d v r
  end.

Definition sort_index (s : series) : series :=
  fold_right (fun r acc => insert_sorted (fst r) (snd r) acc) [] s.

(** [pd.Series({d: s for d, s in records}).sort_index()] *)
Definition series_of_records (records : list (Z * Q)) : series :=
  sort_index (dict_of records).

(** [fetch_spot_history], from the candles of the response: the mean of
    the open and the close mid price for each date. *)
Definition spot_record (c : candle) : Z * Q :=
  (candle_date c, (mid_o c + mid_c c) / 2).

Definition fetch_spot_history (candles : list candle) : series :=
  series_of_records (map spot_record candles).

(** [r.get(key, 0)] *)
Definition get_default (v : option Q) (d : Q) : Q :=
  match v with
  | Some x => x
  | None => d
  end.

Definition swap_record (r : swap_rate) : Z * Q :=
  (swap_date r, get_default (longRate r) 0 - get_default (shortRate r) 0).

(** [fetch_swap_history]: [response] is [None] when anything in the [try]
    block raised; the fallback then fetches the spot history and takes its
    index. *)
Definition fetch_swap_history (response : option (list swap_rate))
    (candles : list candle) : series :=
  match response with
  | Some data => series_of_records (map swap_record data)
  | None => zero_series (map fst (fetch_spot_history candles))
  end.

(** ** optimize.py and backtest.py: the equity curve and the drawdown *)

(** [np.maximum(a, b)]: NaN when either is NaN. *)
Definition np_maximum (a b : cell) : cell :=
  if is_nan a || is_nan b then NaN else if cltb a b then b else a.

(** A running accumulation, as [np.cumsum] and [np.maximum.accumulate]
    make it: the first entry, then each entry combined with the result so
    far. *)
Fixpoint accumulate_from (op : cell -> cell -> cell) (acc : cell) (col : list cell)
  : list cell :=
  match col with
  | [] => []
  | c :: r => let acc := op acc c in acc :: accumulate_from op acc r
  end.

Definition accumulate (op : cell -> cell -> cell) (col : list cell) : list cell :=
  match col with
  | [] => []
  | c :: r => c :: accumulate_from op c r
  end.

(** The cumulative methods of a Series, with the default [skipna]: a NaN
    entry counts as the neutral value while accumulating and is NaN again
    in the result. *)
Definition fill_nan (v c : cell) : cell := if is_nan c then v else c.

Fixpoint restore_nan (col acc : list cell) : list cell :=
  match col, acc with
  | c :: col', a :: acc' => (if is_nan c then NaN else a) :: restore_nan col' acc'
  | _, _ => []
  end.

(** [col.cumsum()] and [col.cummax()] *)
Definition cumsum (col : list cell) : list cell :=
  restore_nan col (accumulate cadd (map (fill_nan (Fin 0)) col)).

Definition cummax (col : list cell) : list cell :=
  restore_nan col (accumulate np_maximum (map (fill_nan NInf) col)).

(** [a - b] on two columns of one frame *)
Fixpoint col_sub (a b : list cell) : list cell :=
  match a, b with
  | x :: a', y :: b' => csub x y :: col_sub a' b'
  | _, _ => []
  end.

(** [col.max()]: the largest value that is not NaN, NaN when there is none. *)
Definition col_max (col : list cell) : cell :=
  match filter (fun c => negb (is_nan c)) col with
  | [] => NaN
  | c :: r => fold_left np_maximum r c
  end.

(** [equity = trades["pnl"].cumsum()] and
    [max_dd = (equity.cummax() - equity).max() if not equity.empty else 0],
    the fifth entry of the result. *)
Definition equity_of (trades : list Df.row) : list cell :=
  cumsum (map Df.pnl trades).

Definition max_drawdown_of (trades : list Df.row) : cell :=
  let equity := equity_of trades in
  match equity with
  | [] => of_int64 0
  | _ => col_max (col_sub (cummax equity) equity)
  end.

(** A finite value that is not negative, and one that is zero. *)
Definition fin_nonneg (c : cell) : Prop := exists q, c = Fin q /\ 0 <= q.
Definition fin_zero (c : cell) : Prop := exists q, c = Fin q /\ q == 0.
Definition is_fin (c : cell) : Prop := exists q, c = Fin q.

(** ** Predicates on column values used below *)

(** A value that is not an infinity. *)
Definition fin_or_nan (c : cell) : Prop := c = NaN \/ exists q, c = Fin q.

(** A deviation within the threshold, or NaN: neither comparison of
    [run_backtest]'s signal assignment holds. *)
Definition within_threshold (threshold_bps : Q) (dev_bps : cell) : Prop :=
  cgtb dev_bps (Fin threshold_bps) = false
  /\ cltb dev_bps (Fin (- threshold_bps)) = false.

(** The number of trades of a frame: its complete rows with a signal. *)
Definition trade_count (df : list Df.row) : nat :=
  count_rows is_trade (dropna_pnl df).

(** Two parameter sets that differ at most in the spread and the stop. *)
Definition same_market (p1 p2 : params) : Prop :=
  tenor_days p1 = tenor_days p2 /\ r_dom p1 = r_dom p2
  /\ r_for p1 = r_for p2 /\ notional p1 = notional p2.

(** Two finite values in order. *)
Definition fin_le (c2 c1 : cell) : Prop :=
  exists q2 q1, c2 = Fin q2 /\ c1 = Fin q1 /\ q2 <= q1.

(** * Properties *)

(** ** The column operations on small inputs *)

Example reindex_example :
  reindex [(1%Z, 5); (3%Z, 7)] [0%Z; 1%Z; 2%Z; 3%Z] = [NaN; Fin 5; NaN; Fin 7].
Proof. reflexivity. Qed.

Example ffill_example :
  ffill [NaN; Fin 5; NaN; NaN; Fin 7; NaN] = [NaN; Fin 5; Fin 5; Fin 5; Fin 7; Fin 7].
Proof. reflexivity. Qed.

Example shift_example :
  shift (-2) [Fin 1; Fin 2; Fin 3] = [Fin 3; NaN; NaN]
  /\ shift 1 [Fin 1; Fin 2; Fin 3] = [NaN; Fin 1; Fin 2]
  /\ shift 0 [Fin 1; Fin 2; Fin 3] = [Fin 1; Fin 2; Fin 3].
Proof. repeat split. Qed.

Example cdiv_by_zero_example :
  cdiv (Fin 1) (Fin 0) = PInf /\ cdiv (Fin (- (1))) (Fin 0) = NInf
  /\ cdiv (Fin 0) (Fin 0) = NaN /\ cmul (Fin 0) PInf = NaN
  /\ csub PInf PInf = NaN /\ cltb NaN (Fin 0) = false /\ cgtb PInf (Fin 0) = true.
Proof. repeat split. Qed.

(** ** cip.py, for every arithmetic *)

Section CipFacts.

Context {F : Type} `{PyFloat F}.

Local Open Scope pyfloat_scope.

Lemma mul_int_fits (x : F) (n : Z) :
  int_fits n = true -> mul_int x n = Return (x * of_int n).
Proof.
  intros Hfit. unfold mul_int, to_float. rewrite Hfit. reflexivity.
Qed.

Lemma mul_int_overflow (x : F) (n : Z) :
  int_fits n = false -> mul_int x n = Raise OverflowError.
Proof.
  intros Hfit. unfold mul_int, to_float. rewrite Hfit. reflexivity.
Qed.

Lemma truediv_360 (a : F) : truediv a (of_int 360) = Return (a / of_int 360).
Proof.
  unfold truediv. rewrite lit_360_nonzero. reflexivity.
Qed.

(** The function up to its last division. *)
Lemma theoretical_forward_last_division (spot r_dom r_for : F) (tenor_days : Z) :
  int_fits tenor_days = true ->
  theoretical_forward spot r_dom r_for tenor_days
  = truediv (spot * dom_factor r_dom tenor_days) (for_factor r_for tenor_days).
Proof.
  intros Hfit. unfold theoretical_forward.
  rewrite !mul_int_fits by assumption. cbn [bind].
  rewrite !truediv_360. reflexivity.
Qed.

(** An [int] too large for a float ends the call with [OverflowError]. *)
Lemma theoretical_forward_overflow (spot r_dom r_for : F) (tenor_days : Z) :
  int_fits tenor_days = false ->
  theoretical_forward spot r_dom r_for tenor_days = Raise OverflowError.
Proof.
  intros Hfit. unfold theoretical_forward.
  rewrite mul_int_overflow by assumption. reflexivity.
Qed.

(** With a nonzero foreign factor the call returns the quotient. *)
Lemma theoretical_forward_nonzero (spot r_dom r_for : F) (tenor_days : Z) :
  int_fits tenor_days = true ->
  (for_factor r_for tenor_days =? of_int 0) = false ->
  theoretical_forward spot r_dom r_for tenor_days
  = Return (spot * dom_factor r_dom tenor_days / for_factor r_for tenor_days).
Proof.
  intros Hfit Hden.
  rewrite theoretical_forward_last_division by assumption.
  unfold truediv. rewrite Hden. reflexivity.
Qed.

Lemma deviation_bps_nonzero (obs_fwd theo_fwd : F) :
  (theo_fwd =? of_int 0) = false ->
  deviation_bps obs_fwd theo_fwd
  = Return ((obs_fwd - theo_fwd) / theo_fwd * of_int 10000).
Proof.
  intros Hz. unfold deviation_bps, truediv. rewrite Hz. reflexivity.
Qed.

Lemma deviation_bps_zero (obs_fwd theo_fwd : F) :
  (theo_fwd =? of_int 0) = true ->
  deviation_bps obs_fwd theo_fwd = Raise ZeroDivisionError.
Proof.
  intros Hz. unfold deviation_bps, truediv. rewrite Hz. reflexivity.
Qed.

(** C1. For every spot, r_dom, r_for and integer tenor_days (positive or
    not) that converts to a float, when [1 + r_for * tenor_days / 360] is
    not zero, [theoretical_forward] returns
    [spot * (1 + r_dom * tenor_days / 360) / (1 + r_for * tenor_days / 360)],
    in whichever arithmetic the operands live. *)
Theorem theoretical_forward_formula (spot r_dom r_for : F) (tenor_days : Z) :
  int_fits tenor_days = true ->
  (of_int 1 + r_for * of_int tenor_days / of_int 360 =? of_int 0) = false ->
  theoretical_forward spot r_dom r_for tenor_days
  = Return (spot * (of_int 1 + r_dom * of_int tenor_days / of_int 360)
            / (of_int 1 + r_for * of_int tenor_days / of_int 360)).
Proof.
  intros Hfit Hden.
  exact (theoretical_forward_nonzero spot r_dom r_for tenor_days Hfit Hden).
Qed.

(** C2, as the code has it. When [tenor_days] converts to a float:
    if [1 + r_for * tenor_days / 360 == 0] the call raises Python's built-in
    [ZeroDivisionError] (the division is not guarded), and otherwise it
    returns a value. *)
Theorem theoretical_forward_zero_division (spot r_dom r_for : F) (tenor_days : Z) :
  int_fits tenor_days = true ->
  ((for_factor r_for tenor_days =? of_int 0) = true ->
   raises (theoretical_forward spot r_dom r_for tenor_days) ZeroDivisionError)
  /\ ((for_factor r_for tenor_days =? of_int 0) = false ->
      returns (theoretical_forward spot r_dom r_for tenor_days)).
Proof.
  intros Hfit.
  rewrite theoretical_forward_last_division by assumption.
  unfold truediv, raises, returns.
  split; intros Hden; rewrite Hden.
  - reflexivity.
  - eexists. reflexivity.
Qed.

(** C3. [deviation_bps(obs_fwd, theo_fwd)] returns
    [(obs_fwd - theo_fwd) / theo_fwd * 10000] when [theo_fwd] is not zero,
    and it fails exactly when [theo_fwd == 0], with [ZeroDivisionError]. *)
Theorem deviation_bps_cases (obs_fwd theo_fwd : F) :
  ((theo_fwd =? of_int 0) = false ->
   deviation_bps obs_fwd theo_fwd
   = Return ((obs_fwd - theo_fwd) / theo_fwd * of_int 10000))
  /\ ((theo_fwd =? of_int 0) = true ->
      raises (deviation_bps obs_fwd theo_fwd) ZeroDivisionError)
  /\ ((exists e, raises (deviation_bps obs_fwd theo_fwd) e) ->
      (theo_fwd =? of_int 0) = true).
Proof.
  split; [apply deviation_bps_nonzero|].
  split; [apply deviation_bps_zero|].
  intros [e He]. unfold raises in He.
  destruct (theo_fwd =? of_int 0) eqn:Hz; [reflexivity|].
  rewrite deviation_bps_nonzero in He by assumption. discriminate He.
Qed.

End CipFacts.

(** The inputs of the module's own example, in exact arithmetic. *)
Lemma theoretical_forward_formula_example :
  theoretical_forward (11691 # 10000) (25 # 1000) (5 # 1000) 30
  = Return ((11691 # 10000) * (1 + (25 # 1000) * inject_Z 30 / 360)
            / (1 + (5 # 1000) * inject_Z 30 / 360)).
Proof.
  exact (theoretical_forward_formula (F := Q) (11691 # 10000) (25 # 1000)
           (5 # 1000) 30 eq_refl eq_refl).
Defined.

Lemma theoretical_forward_zero_division_example :
  raises (theoretical_forward (F := Q) 1 0 (-1) 360) ZeroDivisionError
  /\ returns (theoretical_forward (F := Q) 1 0 0 30).
Proof.
  split.
  - apply (theoretical_forward_zero_division (F := Q) 1 0 (-1) 360); reflexivity.
  - apply (theoretical_forward_zero_division (F := Q) 1 0 0 30); reflexivity.
Defined.

Lemma deviation_bps_cases_example :
  deviation_bps (F := Q) 99 100 = Return ((99 - 100) / 100 * inject_Z 10000)
  /\ raises (deviation_bps (F := Q) 1 0) ZeroDivisionError.
Proof.
  split.
  - exact (proj1 (deviation_bps_cases (F := Q) 99 100) eq_refl).
  - exact (proj1 (proj2 (deviation_bps_cases (F := Q) 1 0)) eq_refl).
Defined.

(** ** cip.py in exact arithmetic *)

Lemma Qeq_bool_false_iff (x y : Q) : Qeq_bool x y = false <-> ~ x == y.
Proof.
  split.
  - intros Hb Heq. apply Qeq_bool_iff in Heq. congruence.
  - intros Hne. destruct (Qeq_bool x y) eqn:Hb; [|reflexivity].
    apply Qeq_bool_iff in Hb. contradiction.
Qed.

(** The formula on rationals, with the hypothesis as a disequality. *)
Lemma theoretical_forward_formula_Q (spot r_dom r_for : Q) (tenor_days : Z) :
  ~ 1 + r_for * inject_Z tenor_days / 360 == 0 ->
  theoretical_forward spot r_dom r_for tenor_days
  = Return (spot * (1 + r_dom * inject_Z tenor_days / 360)
            / (1 + r_for * inject_Z tenor_days / 360)).
Proof.
  intros Hden.
  exact (theoretical_forward_nonzero (F := Q) spot r_dom r_for tenor_days
           eq_refl (proj2 (Qeq_bool_false_iff _ _) Hden)).
Qed.

(** The docstring groups the year fraction, [r * (tenor_days/360)]; on
    rationals that is the same number. *)
Lemma docstring_formula_Q (spot r_dom r_for : Q) (tenor_days : Z) :
  ~ 1 + r_for * inject_Z tenor_days / 360 == 0 ->
  spot * (1 + r_dom * (inject_Z tenor_days / 360))
  / (1 + r_for * (inject_Z tenor_days / 360))
  == spot * (1 + r_dom * inject_Z tenor_days / 360)
     / (1 + r_for * inject_Z tenor_days / 360).
Proof.
  intros Hden. field. intros E. apply Hden.
  setoid_replace (1 + r_for * inject_Z tenor_days / 360)
    with ((360 + r_for * inject_Z tenor_days) / 360) by field.
  rewrite E. reflexivity.
Qed.

(** Without rounding, equal rates give back the spot, whatever the tenor. *)
Lemma theoretical_forward_equal_rates_exact (spot r : Q) (tenor_days : Z) :
  ~ 1 + r * inject_Z tenor_days / 360 == 0 ->
  exists fwd, theoretical_forward spot r r tenor_days = Return fwd /\ fwd == spot.
Proof.
  intros Hden. eexists. split.
  - apply theoretical_forward_formula_Q. exact Hden.
  - field. intros E. apply Hden.
    setoid_replace (1 + r * inject_Z tenor_days / 360)
      with ((360 + r * inject_Z tenor_days) / 360) by field.
    rewrite E. reflexivity.
Qed.

(** [deviation_bps(theo, theo) == 0] for a nonzero [theo]. *)
Lemma deviation_bps_self_Q (theo : Q) :
  ~ theo == 0 ->
  exists dev, deviation_bps theo theo = Return dev /\ dev == 0.
Proof.
  intros Hne. eexists. split.
  - exact (deviation_bps_nonzero (F := Q) theo theo
             (proj2 (Qeq_bool_false_iff _ _) Hne)).
  - cbn. field. exact Hne.
Qed.

(** ** cip.py on binary64 floats *)

(** The module's example: spot 1.16910, rates 2.5% and 0.5%, 30 days, and
    the observed forward 1.16930. *)
Example theoretical_forward_binary64_example :
  theoretical_forward 0x1.2b4a2339c0ebfp+0%float 0x1.999999999999ap-6%float
    0x1.47ae147ae147bp-8%float 30
  = Return 0x1.2bc9c804016e0p+0%float.
Proof. vm_compute. reflexivity. Qed.

Example deviation_bps_binary64_example :
  deviation_bps 0x1.2b573eab367a1p+0%float 0x1.2bc9c804016e0p+0%float
  = Return (-0x1.dd9296f8adc26p+3)%float.
Proof. vm_compute. reflexivity. Qed.

(** A tenor too large for a float: the conversion raises. *)
Example theoretical_forward_binary64_overflow :
  theoretical_forward 1%float 0%float 0%float (2 ^ 1024) = Raise OverflowError.
Proof. apply theoretical_forward_overflow. vm_compute. reflexivity. Qed.

(** C9. The identity [theoretical_forward(spot, r, r, tenor) == spot] fails
    for some spot > 0, rate and tenor > 0 with a nonzero denominator: on
    floats, spot 110.25, rate 0.25 and 365 days give 110.24999999999999.
    (The difference is one of rounding: see
    [theoretical_forward_equal_rates_exact].) *)
Theorem theoretical_forward_equal_rates_not_spot :
  exists (spot r : float) (tenor : Z),
    fltb (of_int 0) spot = true
    /\ (0 < tenor)%Z
    /\ feqb (for_factor r tenor) (of_int 0) = false
    /\ exists fwd : float,
         theoretical_forward spot r r tenor = Return fwd
         /\ feqb fwd spot = false.
Proof.
  exists 110.25%float, 0.25%float, 365%Z.
  split; [vm_compute; reflexivity|].
  split; [reflexivity|].
  split; [vm_compute; reflexivity|].
  exists 0x1.b8fffffffffffp+6%float.
  split; vm_compute; reflexivity.
Qed.

(** C2, the claim refuted: spot 1, r_dom 0, r_for -1 and 360 days make the
    denominator zero, and the call raises [ZeroDivisionError], which is not
    [InvalidRateError]; so on floats, so on rationals. *)
Lemma theoretical_forward_raises_no_InvalidRateError :
  (feqb (for_factor (-1)%float 360) (of_int 0) = true
   /\ theoretical_forward 1%float 0%float (-1)%float 360 = Raise ZeroDivisionError
   /\ ~ raises (theoretical_forward 1%float 0%float (-1)%float 360) InvalidRateError)
  /\ (feqb (for_factor (-1 : Q) 360) (of_int 0) = true
      /\ theoretical_forward (1 : Q) 0 (-1) 360 = Raise ZeroDivisionError
      /\ ~ raises (theoretical_forward (1 : Q) 0 (-1) 360) InvalidRateError).
Proof.
  split.
  - split; [vm_compute; reflexivity|].
    split; [vm_compute; reflexivity|].
    unfold raises. intros E. vm_compute in E. discriminate E.
  - split; [reflexivity|].
    split; [reflexivity|].
    unfold raises. intros E. vm_compute in E. discriminate E.
Qed.

(** ** Comparisons on rationals and on column values *)

Lemma Qltb_true_iff (x y : Q) : negb (Qle_bool y x) = true <-> x < y.
Proof.
  rewrite negb_true_iff. split.
  - intros Hb. apply Qnot_le_lt. intros Hle.
    apply Qle_bool_iff in Hle. congruence.
  - intros Hlt. destruct (Qle_bool y x) eqn:Hb; [|reflexivity].
    apply Qle_bool_iff in Hb. lra.
Qed.

Lemma Qltb_false_iff (x y : Q) : negb (Qle_bool y x) = false <-> y <= x.
Proof.
  rewrite negb_false_iff. apply Qle_bool_iff.
Qed.

Lemma cltb_Fin (x y : Q) : cltb (Fin x) (Fin y) = true <-> x < y.
Proof. apply Qltb_true_iff. Qed.

Lemma cgtb_Fin (x y : Q) : cgtb (Fin x) (Fin y) = true <-> y < x.
Proof. apply Qltb_true_iff. Qed.

Lemma cltb_NaN_l (c : cell) : cltb NaN c = false.
Proof. reflexivity. Qed.

Lemma cltb_NaN_r (c : cell) : cltb c NaN = false.
Proof. destruct c; reflexivity. Qed.

Lemma ceq_refl (c : cell) : ceq c c.
Proof. destruct c; simpl; auto. reflexivity. Qed.

Lemma ceq_sym (a b : cell) : ceq a b -> ceq b a.
Proof. destruct a, b; simpl; auto. intros E. symmetry. exact E. Qed.

Lemma ceq_trans (a b c : cell) : ceq a b -> ceq b c -> ceq a c.
Proof.
  destruct a, b, c; simpl; auto; try contradiction.
  intros E1 E2. rewrite E1. exact E2.
Qed.

Lemma cltb_ceq (a a' b : cell) : ceq a a' -> cltb a b = cltb a' b.
Proof.
  destruct a, a', b; simpl; auto; try contradiction.
  intros E. destruct (Qle_bool q1 q) eqn:H1, (Qle_bool q1 q0) eqn:H2; auto.
  - apply Qle_bool_iff in H1. rewrite E in H1.
    apply Qle_bool_iff in H1. congruence.
  - apply Qle_bool_iff in H2. rewrite <- E in H2.
    apply Qle_bool_iff in H2. congruence.
Qed.

Lemma stop_loss_ceq (stop_amt : Q) (a a' : cell) :
  ceq a a' -> ceq (stop_loss stop_amt a) (stop_loss stop_amt a').
Proof.
  intros E. unfold stop_loss. rewrite (cltb_ceq a a' _ E).
  destruct (cltb a' (Fin (- stop_amt))); [apply ceq_refl | exact E].
Qed.

(** ** The signal classifier *)

Lemma assign_signal_Fin (t x : Q) :
  assign_signal t (Fin x)
  = if negb (Qle_bool (- t) x) then 1%Z
    else if negb (Qle_bool x t) then (-1)%Z else 0%Z.
Proof.
  unfold assign_signal, cgtb, cltb.
  destruct (negb (Qle_bool (- t) x)), (negb (Qle_bool x t)); reflexivity.
Qed.

(** NaN is neither above nor below a threshold. *)
Lemma assign_signal_NaN (t : Q) : assign_signal t NaN = 0%Z.
Proof. reflexivity. Qed.

Lemma assign_signal_range (t : Q) (dev : cell) :
  assign_signal t dev = 0%Z \/ assign_signal t dev = 1%Z
  \/ assign_signal t dev = (-1)%Z.
Proof.
  unfold assign_signal.
  destruct (cltb dev (Fin (- t))), (cgtb dev (Fin t)); auto.
Qed.

Lemma backtest_signal_threshold_zero (dev : cell) :
  backtest_signal dev = assign_signal 0 dev.
Proof. reflexivity. Qed.

Lemma classify_cases (x t : Q) :
  0 <= t ->
  (classify x t = Rich_Sell_forward <-> t < x)
  /\ (classify x t = Cheap_Buy_forward <-> x < - t)
  /\ (classify x t = No_arbitrage <-> - t <= x <= t).
Proof.
  intros Ht. unfold classify. cbn [fltb Q_PyFloat].
  destruct (negb (Qle_bool x t)) eqn:Hgt.
  - apply Qltb_true_iff in Hgt.
    repeat split; intros; try discriminate; try lra; reflexivity.
  - apply Qltb_false_iff in Hgt.
    destruct (negb (Qle_bool (- t) x)) eqn:Hlt.
    + apply Qltb_true_iff in Hlt.
      repeat split; intros; try discriminate; try lra; reflexivity.
    + apply Qltb_false_iff in Hlt.
      repeat split; intros; try discriminate; try lra; reflexivity.
Qed.

Lemma assign_signal_cases (x t : Q) :
  0 <= t ->
  (assign_signal t (Fin x) = (-1)%Z <-> t < x)
  /\ (assign_signal t (Fin x) = 1%Z <-> x < - t)
  /\ (assign_signal t (Fin x) = 0%Z <-> - t <= x <= t).
Proof.
  intros Ht. rewrite assign_signal_Fin.
  destruct (negb (Qle_bool (- t) x)) eqn:Hlt.
  - apply Qltb_true_iff in Hlt.
    repeat split; intros; try discriminate; try lra; reflexivity.
  - apply Qltb_false_iff in Hlt.
    destruct (negb (Qle_bool x t)) eqn:Hgt.
    + apply Qltb_true_iff in Hgt.
      repeat split; intros; try discriminate; try lra; reflexivity.
    + apply Qltb_false_iff in Hgt.
      repeat split; intros; try discriminate; try lra; reflexivity.
Qed.

(** C4. For every deviation [x] and threshold [t >= 0], the dashboard's
    classifier and the signal column of [run_backtest] both give Sell ([-1])
    iff [x > t], Buy ([+1]) iff [x < -t], and no action ([0]) iff
    [-t <= x <= t]; a deviation equal to [t] or to [-t] is no action. *)
Theorem classifier_step_function (x t : Q) :
  0 <= t ->
  ((classify x t = Rich_Sell_forward <-> t < x)
   /\ (classify x t = Cheap_Buy_forward <-> x < - t)
   /\ (classify x t = No_arbitrage <-> - t <= x <= t))
  /\ ((assign_signal t (Fin x) = (-1)%Z <-> t < x)
      /\ (assign_signal t (Fin x) = 1%Z <-> x < - t)
      /\ (assign_signal t (Fin x) = 0%Z <-> - t <= x <= t))
  /\ (classify t t = No_arbitrage /\ classify (- t) t = No_arbitrage
      /\ assign_signal t (Fin t) = 0%Z /\ assign_signal t (Fin (- t)) = 0%Z).
Proof.
  intros Ht.
  split; [apply classify_cases; exact Ht|].
  split; [apply assign_signal_cases; exact Ht|].
  repeat split.
  - apply (classify_cases t t Ht). lra.
  - apply (classify_cases (- t) t Ht). lra.
  - apply (assign_signal_cases t t Ht). lra.
  - apply (assign_signal_cases (- t) t Ht). lra.
Qed.

(** A deviation of exactly one basis point against a threshold of one. *)
Lemma classifier_step_function_tie :
  classify 1 1 = No_arbitrage /\ assign_signal 1 (Fin 1) = 0%Z.
Proof.
  assert (H01 : 0 <= 1) by (unfold Qle; simpl; lia).
  pose proof (classifier_step_function 1 1 H01) as [_ [_ [Hc [_ [Hs _]]]]].
  split; assumption.
Defined.

(** Buying is the mirror image of selling. *)
Lemma classify_symmetric (x t : Q) :
  0 <= t ->
  (classify x t = Cheap_Buy_forward <-> classify (- x) t = Rich_Sell_forward).
Proof.
  intros Ht.
  destruct (classify_cases x t Ht) as [_ [Hbuy _]].
  destruct (classify_cases (- x) t Ht) as [Hsell _].
  rewrite Hbuy, Hsell. split; intros; lra.
Qed.

(** ** The rows of a driver's data frame *)

Lemma make_rows_In (sig : cell -> Z) (p : params) (r : Df.row) :
  forall (spot : series) (swap : list cell) (theo : list Q) (ex : list cell),
    In r (make_rows sig p spot swap theo ex) ->
    exists d s sw th e, r = make_row sig p d s sw th e.
Proof.
  induction spot as [|[d s] spot IH]; intros swap theo ex Hin.
  - contradiction.
  - destruct swap as [|sw swap]; [contradiction|].
    destruct theo as [|th theo]; [contradiction|].
    destruct ex as [|e ex]; [contradiction|].
    destruct Hin as [Heq|Hin].
    + exists d, s, sw, th, e. symmetry. exact Heq.
    + eapply IH. exact Hin.
Qed.

Lemma build_frame_rows (sig : cell -> Z) (p : params)
    (spot swap_pts : series) (df : list Df.row) (r : Df.row) :
  build_frame sig p spot swap_pts = Return df ->
  In r df ->
  exists d s sw th e, r = make_row sig p d s sw th e.
Proof.
  unfold build_frame. intros Hrun Hin.
  destruct (mapM _ spot) as [theo|e]; cbn [bind] in Hrun; [|discriminate].
  injection Hrun as <-. eapply make_rows_In. exact Hin.
Qed.

(** The drivers return whenever the foreign factor is not zero: the only
    exception of a run is that of [theoretical_forward]. *)
Lemma mapM_returns {A B : Type} (f : A -> result B) (l : list A) :
  (forall x, In x l -> returns (f x)) -> returns (mapM f l).
Proof.
  induction l as [|x l IH]; intros Hall.
  - eexists. reflexivity.
  - destruct (Hall x (or_introl eq_refl)) as [y Hy].
    destruct IH as [ys Hys].
    { intros z Hz. apply Hall. right. exact Hz. }
    exists (y :: ys). cbn [mapM]. rewrite Hy. cbn [bind]. rewrite Hys.
    reflexivity.
Qed.

Lemma build_frame_returns (sig : cell -> Z) (p : params) (spot swap_pts : series) :
  ~ 1 + r_for p * inject_Z (tenor_days p) / 360 == 0 ->
  returns (build_frame sig p spot swap_pts).
Proof.
  intros Hden. unfold build_frame.
  destruct (mapM_returns
              (fun ds => theoretical_forward (snd ds) (r_dom p) (r_for p)
                           (tenor_days p)) spot) as [theo Htheo].
  { intros ds _. eexists. apply theoretical_forward_formula_Q. exact Hden. }
  rewrite Htheo. eexists. reflexivity.
Qed.

Lemma run_backtest_returns (spot swap_pts : series) (t : Q) (p : params) :
  ~ 1 + r_for p * inject_Z (tenor_days p) / 360 == 0 ->
  returns (run_backtest spot swap_pts t p) /\ returns (backtest spot swap_pts p).
Proof.
  intros Hden. unfold run_backtest, backtest.
  destruct (build_frame_returns (assign_signal t) p spot swap_pts Hden) as [df1 H1].
  destruct (build_frame_returns backtest_signal p spot swap_pts Hden) as [df2 H2].
  rewrite H1, H2. split; eexists; reflexivity.
Qed.

(** Every row of a driver's frame is made by [make_row] with a signal rule
    whose values are [-1], [0] and [+1]. *)
Lemma driver_frame_rows (p : params) (df : list Df.row) (r : Df.row) :
  driver_frame p df ->
  In r df ->
  exists sig d s sw th e,
    r = make_row sig p d s sw th e
    /\ (forall dev, sig dev = 0%Z \/ sig dev = 1%Z \/ sig dev = (-1)%Z).
Proof.
  intros [(spot & swap & t & Hrun)|(spot & swap & Hrun)] Hin.
  - destruct (build_frame_rows _ _ _ _ _ _ Hrun Hin) as (d & s & sw & th & e & ->).
    exists (assign_signal t), d, s, sw, th, e.
    split; [reflexivity|]. apply assign_signal_range.
  - destruct (build_frame_rows _ _ _ _ _ _ Hrun Hin) as (d & s & sw & th & e & ->).
    exists backtest_signal, d, s, sw, th, e.
    split; [reflexivity|]. intros dev.
    rewrite backtest_signal_threshold_zero. apply assign_signal_range.
Qed.

(** ** The signal column of backtest.py *)

(** C10. In the data frame of [backtest] every row with a deviation above 0
    gets the Sell signal [-1] and every row with a deviation below 0 the
    Buy signal [+1]: the rule is that of [run_backtest] with a threshold of
    zero, and [backtest] has no threshold among its parameters. *)
Theorem backtest_signal_zero_threshold :
  (forall (spot swap_pts : series) (p : params) (df : list Df.row) (r : Df.row),
      build_frame backtest_signal p spot swap_pts = Return df ->
      In r df ->
      (cgtb (Df.dev_bps r) (Fin 0) = true -> Df.signal r = (-1)%Z)
      /\ (cltb (Df.dev_bps r) (Fin 0) = true -> Df.signal r = 1%Z))
  /\ (forall x : Q, 0 < x -> backtest_signal (Fin x) = (-1)%Z)
  /\ (forall x : Q, x < 0 -> backtest_signal (Fin x) = 1%Z)
  /\ (forall (spot swap_pts : series) (p : params),
         backtest spot swap_pts p = run_backtest spot swap_pts 0 p).
Proof.
  assert (Hgt : forall dev, cgtb dev (Fin 0) = true -> backtest_signal dev = (-1)%Z).
  { intros dev Hd. unfold backtest_signal.
    change (of_int64 0) with (Fin 0). rewrite Hd.
    destruct dev as [q| | |]; try discriminate; try reflexivity.
    apply cgtb_Fin in Hd.
    destruct (cltb (Fin q) (Fin 0)) eqn:Hl; [|reflexivity].
    apply cltb_Fin in Hl. lra. }
  assert (Hlt : forall dev, cltb dev (Fin 0) = true -> backtest_signal dev = 1%Z).
  { intros dev Hd. unfold backtest_signal.
    change (of_int64 0) with (Fin 0). rewrite Hd. reflexivity. }
  split; [|split; [|split]].
  - intros spot swap_pts p df r Hrun Hin.
    destruct (build_frame_rows _ _ _ _ _ _ Hrun Hin) as (d & s & sw & th & e & ->).
    cbn [Df.dev_bps Df.signal make_row]. split; [apply Hgt | apply Hlt].
  - intros x Hx. apply Hgt. apply cgtb_Fin. exact Hx.
  - intros x Hx. apply Hlt. apply cltb_Fin. exact Hx.
  - intros spot swap_pts p. reflexivity.
Qed.

(** ** The stop-loss floor *)

Lemma stop_loss_nan (stop_amt : Q) (c : cell) :
  is_nan (stop_loss stop_amt c) = is_nan c.
Proof.
  unfold stop_loss. destruct c; simpl; try reflexivity.
  destruct (negb (Qle_bool (- stop_amt) q)); reflexivity.
Qed.

Lemma stop_loss_floor (stop_amt : Q) (c : cell) :
  is_nan c = false -> cle (Fin (- stop_amt)) (stop_loss stop_amt c).
Proof.
  unfold stop_loss. destruct c as [q| | |]; simpl; intros Hn;
    try discriminate; try exact I.
  - destruct (negb (Qle_bool (- stop_amt) q)) eqn:Hlt; simpl.
    + lra.
    + apply Qltb_false_iff in Hlt. exact Hlt.
  - lra.
Qed.

(** Finite prices give a finite PnL. *)
Lemma estimate_pnl_finite (sg : Z) (obs ex n sp st : Q) :
  exists pnl, estimate_pnl sg (Fin obs) (Fin ex) n sp st = Fin pnl.
Proof.
  unfold estimate_pnl, stop_loss, net_pnl_of, raw_pnl_of, of_int64. simpl.
  match goal with |- context [if ?b then _ else _] => destruct b end;
    eexists; reflexivity.
Qed.

(** C5. The PnL of a row is never below [-stop_loss_bps/10000*notional]:
    for every signal, observed forward, exit price, notional, spread and
    stop (of any sign), finite prices give a finite PnL at or above the
    floor; so does any row whose PnL is not NaN, and so every row that
    either driver keeps in [trades]. *)
Theorem estimate_pnl_floor :
  (forall (sg : Z) (obs ex n sp st : Q),
      exists pnl, estimate_pnl sg (Fin obs) (Fin ex) n sp st = Fin pnl
                  /\ - (st / 10000 * n) <= pnl)
  /\ (forall (sg : Z) (obs ex : cell) (n sp st : Q),
         is_nan (estimate_pnl sg obs ex n sp st) = false ->
         cle (Fin (- (st / 10000 * n))) (estimate_pnl sg obs ex n sp st))
  /\ (forall (p : params) (df : list Df.row) (r : Df.row),
         driver_frame p df ->
         In r (dropna_pnl df) ->
         cle (Fin (- (stop_loss_bps p / 10000 * notional p))) (Df.pnl r)).
Proof.
  assert (Hcell : forall sg obs ex n sp st,
             is_nan (estimate_pnl sg obs ex n sp st) = false ->
             cle (Fin (- (st / 10000 * n))) (estimate_pnl sg obs ex n sp st)).
  { intros sg obs ex n sp st Hn. unfold estimate_pnl in *.
    rewrite stop_loss_nan in Hn. apply stop_loss_floor. exact Hn. }
  split; [|split].
  - intros sg obs ex n sp st.
    destruct (estimate_pnl_finite sg obs ex n sp st) as [pnl Hp].
    exists pnl. split; [exact Hp|].
    specialize (Hcell sg (Fin obs) (Fin ex) n sp st).
    rewrite Hp in Hcell. apply Hcell. reflexivity.
  - exact Hcell.
  - intros p df r Hdf Hin. unfold dropna_pnl in Hin.
    apply filter_In in Hin. destruct Hin as [Hin Hn].
    apply negb_true_iff in Hn.
    destruct (driver_frame_rows p df r Hdf Hin) as (sig & d & s & sw & th & e & -> & _).
    cbn [Df.pnl make_row] in *. apply Hcell. exact Hn.
Qed.

(** The specification's scenario: a raw PnL of -25,000 on a notional of
    1,000,000, a cost of 1,000, a stop of 5 bps, hence a PnL of -500. *)
Lemma estimate_pnl_floor_scenario :
  exists pnl,
    estimate_pnl 1 (Fin (12 # 10)) (Fin (1175 # 1000)) 1000000 10 5 = Fin pnl
    /\ - (5 / 10000 * 1000000) <= pnl.
Proof.
  exact (proj1 estimate_pnl_floor 1%Z (12 # 10) (1175 # 1000) 1000000 10 5).
Defined.

Example estimate_pnl_scenario_value :
  ceq (estimate_pnl 1 (Fin (12 # 10)) (Fin (1175 # 1000)) 1000000 10 5)
      (Fin (- 500)).
Proof. vm_compute. reflexivity. Qed.

(** The dashboard floors its PnL in the same way. *)
Lemma dashboard_pnl_floor (obs theo sp st : Q) :
  - (st / 10000 * 1000000) <= dashboard_pnl obs theo sp st.
Proof.
  unfold dashboard_pnl. cbn [fltb Q_PyFloat].
  match goal with |- context [if ?b then _ else _] => destruct b eqn:Hlt end.
  - lra.
  - apply Qltb_false_iff in Hlt. exact Hlt.
Qed.

(** ** The spread cost and the rows without a signal *)

Lemma net_pnl_of_no_action (raw : cell) (cost : Q) :
  ceq (net_pnl_of 0 raw cost) raw.
Proof.
  unfold net_pnl_of, csub, of_int64. destruct raw; simpl; auto. ring.
Qed.

Lemma net_pnl_of_directional (sg : Z) (raw : cell) (cost : Q) :
  sg = 1%Z \/ sg = (-1)%Z ->
  ceq (net_pnl_of sg raw cost) (csub raw (Fin cost)).
Proof.
  intros [-> | ->]; unfold net_pnl_of, csub, of_int64;
    destruct raw; simpl; auto; ring.
Qed.

Lemma estimate_pnl_no_action (obs ex : cell) (n sp st : Q) :
  0 <= st / 10000 * n ->
  is_nan (estimate_pnl 0 obs ex n sp st) = false ->
  ceq (estimate_pnl 0 obs ex n sp st) (Fin 0).
Proof.
  intros Hstop. unfold estimate_pnl, raw_pnl_of, net_pnl_of, of_int64.
  destruct (csub ex obs) as [d| | |]; simpl; try discriminate.
  intros _. unfold stop_loss. simpl.
  match goal with
  | |- context [negb (Qle_bool ?f ?v)] =>
      assert (Hv : v == 0) by (change (inject_Z 0) with 0; ring);
      destruct (negb (Qle_bool f v)) eqn:Hlt; simpl
  end.
  - apply Qltb_true_iff in Hlt. lra.
  - exact Hv.
Qed.

(** C6, as the drivers have it. In the frame of [run_backtest] or
    [backtest] every signal is [-1], [0] or [+1]; on a row with signal [0]
    the PnL is the stopped raw PnL with no cost taken off, and it is exactly
    [0] when the row has an exit price (its PnL is not NaN; here the stop
    amount is taken non-negative); on a row with a signal the cost
    [spread_bps/10000*notional] is taken off the raw PnL once, before the
    stop. *)
Theorem spread_cost_once_per_trade (p : params) (df : list Df.row) (r : Df.row) :
  driver_frame p df ->
  In r df ->
  let cost := spread_bps p / 10000 * notional p in
  let stop_amt := stop_loss_bps p / 10000 * notional p in
  (Df.signal r = 0%Z \/ Df.signal r = 1%Z \/ Df.signal r = (-1)%Z)
  /\ (Df.signal r = 0%Z ->
      ceq (Df.pnl r) (stop_loss stop_amt (Df.raw_pnl r))
      /\ (0 <= stop_amt -> is_nan (Df.pnl r) = false -> ceq (Df.pnl r) (Fin 0)))
  /\ (Df.signal r <> 0%Z ->
      ceq (Df.pnl r) (stop_loss stop_amt (csub (Df.raw_pnl r) (Fin cost)))).
Proof.
  intros Hdf Hin cost stop_amt.
  destruct (driver_frame_rows p df r Hdf Hin)
    as (sig & d & s & sw & th & e & -> & Hrange).
  cbn [Df.signal Df.pnl Df.raw_pnl make_row].
  match goal with |- context [sig ?dev] => specialize (Hrange dev);
    set (sg := sig dev) in * end.
  split; [exact Hrange|]. split.
  - intros Hsg. rewrite Hsg. split.
    + unfold estimate_pnl. apply stop_loss_ceq. apply net_pnl_of_no_action.
    + apply estimate_pnl_no_action.
  - intros Hsg. unfold estimate_pnl. apply stop_loss_ceq.
    apply net_pnl_of_directional.
    destruct Hrange as [H0|[H1|H1]]; [contradiction|left|right]; assumption.
Qed.

(** Day 1 of the example history: no signal, and a PnL of zero. *)
Lemma spread_cost_once_per_trade_example :
  exists r,
    nth_error example_frame 1 = Some r
    /\ Df.signal r = 0%Z
    /\ ceq (Df.pnl r) (Fin 0).
Proof.
  assert (Hdf : driver_frame example_params example_frame).
  { left. exists example_spot, example_swap_pts, 1. vm_compute. reflexivity. }
  eexists. split; [reflexivity|]. split; [reflexivity|].
  match goal with
  | |- ceq (Df.pnl ?r) _ =>
      assert (Hin : In r example_frame) by (right; left; reflexivity);
      apply (spread_cost_once_per_trade example_params example_frame r Hdf Hin)
  end.
  - reflexivity.
  - vm_compute. discriminate.
  - reflexivity.
Defined.

(** C6, the claim refuted.  On the dashboard a pair whose signal is
    "No arbitrage" still has a PnL, with the cost taken off: the settings
    of [example_settings] and a spot of 1.1691 give a deviation of half a
    basis point and a PnL of about 48.5, the raw PnL minus the cost of 10.
    And in the backtest the last day of the example history has no signal
    and a PnL of NaN, not 0: it has no exit price. *)
Lemma no_action_pnl_not_always_zero :
  (exists row,
      dashboard_pair example_settings (11691 # 10000) 0 = Return row
      /\ row_sig row = No_arbitrage
      /\ ~ row_pnl row == 0
      /\ row_pnl row
         == (row_obs_fwd row - row_theo_fwd row) * 1000000
            - (1 # 10) / 10000 * 1000000)
  /\ (exists df r,
         build_frame backtest_signal example_params example_spot
           example_swap_pts = Return df
         /\ nth_error df 2 = Some r
         /\ Df.signal r = 0%Z
         /\ Df.pnl r = NaN).
Proof.
  split.
  - eexists. split; [vm_compute; reflexivity|].
    split; [reflexivity|]. split.
    + vm_compute. discriminate.
    + vm_compute. reflexivity.
  - eexists. eexists. split; [vm_compute; reflexivity|].
    split; [reflexivity|]. split; reflexivity.
Qed.

(** ** The win rate *)

Lemma count_rows_le (f : Df.row -> bool) (rows : list Df.row) :
  (count_rows f rows <= List.length rows)%nat.
Proof. unfold count_rows. apply filter_length_le. Qed.

Lemma count_rows_ext_in (f g : Df.row -> bool) (rows : list Df.row) :
  (forall r, In r rows -> f r = g r) ->
  count_rows f rows = count_rows g rows.
Proof.
  intros Hext. unfold count_rows. f_equal. apply filter_ext_in. exact Hext.
Qed.

Lemma run_backtest_frame (spot swap_pts : series) (t : Q) (p : params) (m : metrics) :
  run_backtest spot swap_pts t p = Return m ->
  exists df,
    build_frame (assign_signal t) p spot swap_pts = Return df
    /\ m = summarize (dropna_pnl df).
Proof.
  unfold run_backtest. intros Hrun.
  destruct (build_frame (assign_signal t) p spot swap_pts) as [df|e];
    cbn [bind] in Hrun; [|discriminate].
  injection Hrun as <-. exists df. split; reflexivity.
Qed.

(** A row without a signal does not win: with a stop amount that is not
    negative its PnL is zero or NaN. *)
Lemma win_is_trade (p : params) (df : list Df.row) (r : Df.row) :
  driver_frame p df ->
  In r df ->
  0 <= stop_loss_bps p / 10000 * notional p ->
  is_win r = true ->
  is_trade r = true.
Proof.
  intros Hdf Hin Hstop Hwin.
  destruct (driver_frame_rows p df r Hdf Hin)
    as (sig & d & s & sw & th & e & -> & Hrange).
  unfold is_trade, is_win in *. cbn [Df.signal Df.pnl make_row] in *.
  match goal with |- context [sig ?dev] => specialize (Hrange dev);
    set (sg := sig dev) in * end.
  destruct Hrange as [H0|[H1|H1]]; rewrite ?H1; try reflexivity.
  exfalso. rewrite H0 in Hwin.
  match type of Hwin with
  | cgtb ?c _ = true =>
      assert (Hn : is_nan c = false) by (destruct c; [reflexivity..|discriminate]);
      pose proof (estimate_pnl_no_action _ _ _ _ _ Hstop Hn) as Hz;
      destruct c as [q| | |]; simpl in Hz; try contradiction
  end.
  apply cgtb_Fin in Hwin. change (inject_Z 0) with 0 in Hwin. lra.
Qed.

(** C7, as the code has it. The win rate [run_backtest] returns is 0 when
    no complete row has a signal, and otherwise 100 times the number of
    complete rows with a signal and a positive PnL, divided by the number of
    all complete rows, those without a signal included (the stop amount is
    taken non-negative, so that a row without a signal cannot win). *)
Theorem win_rate_over_all_complete_rows
    (spot swap_pts : series) (threshold_bps : Q) (p : params) (m : metrics) :
  run_backtest spot swap_pts threshold_bps p = Return m ->
  0 <= stop_loss_bps p / 10000 * notional p ->
  exists df,
    build_frame (assign_signal threshold_bps) p spot swap_pts = Return df
    /\ num_trades m = count_rows is_trade (dropna_pnl df)
    /\ (num_trades m = 0%nat -> win_rate m = 0)
    /\ (num_trades m <> 0%nat ->
        (0 < List.length (dropna_pnl df))%nat
        /\ win_rate m
           = inject_Z (Z.of_nat (count_rows (fun r => is_trade r && is_win r)
                                   (dropna_pnl df)))
             / inject_Z (Z.of_nat (List.length (dropna_pnl df))) * 100).
Proof.
  intros Hrun Hstop.
  destruct (run_backtest_frame spot swap_pts threshold_bps p m Hrun)
    as (df & Hdf & ->).
  exists df. split; [exact Hdf|]. split; [reflexivity|].
  cbn [num_trades win_rate summarize]. unfold win_rate_of.
  split.
  - intros H0. rewrite H0. reflexivity.
  - intros Hne. split.
    + pose proof (count_rows_le is_trade (dropna_pnl df)). lia.
    + destruct (count_rows is_trade (dropna_pnl df) =? 0)%nat eqn:Hc.
      * apply Nat.eqb_eq in Hc. contradiction.
      * rewrite (count_rows_ext_in is_win (fun r => is_trade r && is_win r)).
        { reflexivity. }
        intros r Hin. unfold dropna_pnl in Hin. apply filter_In in Hin.
        destruct Hin as [Hin _].
        destruct (is_win r) eqn:Hw.
        -- rewrite (win_is_trade p df r); [reflexivity| |exact Hin|exact Hstop|exact Hw].
           left. exists spot, swap_pts, threshold_bps. exact Hdf.
        -- rewrite andb_false_r. reflexivity.
Qed.

Lemma win_rate_over_all_complete_rows_example :
  exists df,
    build_frame (assign_signal 1) example_params example_spot example_swap_pts
    = Return df
    /\ num_trades example_metrics = count_rows is_trade (dropna_pnl df)
    /\ win_rate example_metrics
       = inject_Z (Z.of_nat (count_rows (fun r => is_trade r && is_win r)
                               (dropna_pnl df)))
         / inject_Z (Z.of_nat (List.length (dropna_pnl df))) * 100.
Proof.
  assert (Hrun : run_backtest example_spot example_swap_pts 1 example_params
                 = Return example_metrics) by (vm_compute; reflexivity).
  assert (Hstop : 0 <= stop_loss_bps example_params / 10000
                       * notional example_params) by (vm_compute; discriminate).
  destruct (win_rate_over_all_complete_rows example_spot example_swap_pts 1
              example_params example_metrics Hrun Hstop)
    as (df & Hdf & Hn & _ & Hw).
  exists df. split; [exact Hdf|]. split; [exact Hn|].
  apply Hw. vm_compute. discriminate.
Defined.

(** The same holds of [backtest], whose signal rule is that of a zero
    threshold. *)
Lemma backtest_win_rate (spot swap_pts : series) (p : params) (m : metrics) :
  backtest spot swap_pts p = Return m ->
  exists df,
    build_frame backtest_signal p spot swap_pts = Return df
    /\ win_rate m = win_rate_of (dropna_pnl df)
    /\ num_trades m = count_rows is_trade (dropna_pnl df).
Proof.
  unfold backtest. intros Hrun.
  destruct (build_frame backtest_signal p spot swap_pts) as [df|e];
    cbn [bind] in Hrun; [|discriminate].
  injection Hrun as <-. exists df. repeat split.
Qed.

(** When every complete row has a signal, the win rate is the fraction the
    specification describes, as a percentage. *)
Lemma win_rate_of_all_trades (trades : list Df.row) :
  count_rows is_trade trades = List.length trades ->
  trades <> [] ->
  (forall r, In r trades -> is_win r = true -> is_trade r = true) ->
  win_rate_of trades == spec_win_fraction trades * 100.
Proof.
  intros Hall Hne Hwin. unfold win_rate_of, spec_win_fraction.
  rewrite Hall.
  destruct (List.length trades =? 0)%nat eqn:Hlen.
  - apply Nat.eqb_eq in Hlen. apply length_zero_iff_nil in Hlen. contradiction.
  - rewrite (count_rows_ext_in is_win (fun r => is_trade r && is_win r)).
    + reflexivity.
    + intros r Hin. destruct (is_win r) eqn:Hw.
      * rewrite (Hwin r Hin Hw). reflexivity.
      * rewrite andb_false_r. reflexivity.
Qed.

(** C7, the claim refuted.  On the example history [run_backtest] keeps two
    complete rows, the winning Buy of day 0 and day 1 without a signal, and
    returns one trade and a win rate of 50; the fraction of winners among
    the rows with a signal is 1 (100 per cent). *)
Lemma win_rate_counts_rows_without_signal :
  run_backtest example_spot example_swap_pts 1 example_params
  = Return example_metrics
  /\ build_frame (assign_signal 1) example_params example_spot example_swap_pts
     = Return example_frame
  /\ map Df.signal (dropna_pnl example_frame) = [1%Z; 0%Z]
  /\ num_trades example_metrics = 1%nat
  /\ win_rate example_metrics == 50
  /\ spec_win_fraction (dropna_pnl example_frame) == 1
  /\ ~ win_rate example_metrics == spec_win_fraction (dropna_pnl example_frame)
  /\ ~ win_rate example_metrics
       == spec_win_fraction (dropna_pnl example_frame) * 100.
Proof.
  split; [vm_compute; reflexivity|].
  split; [vm_compute; reflexivity|].
  split; [vm_compute; reflexivity|].
  split; [reflexivity|].
  split; [vm_compute; reflexivity|].
  split; [vm_compute; reflexivity|].
  split; vm_compute; discriminate.
Qed.

(** ** The path simulator *)

Lemma simulate_path_draws (days : nat) :
  forall (path obs_fwd : Q) (g : rng) (n : nat),
    snd (simulate_path days path obs_fwd g) n = g (days + n)%nat.
Proof.
  induction days as [|days IH]; intros path obs_fwd g n.
  - reflexivity.
  - cbn [simulate_path]. unfold uniform, random.
    match goal with
    | |- context [simulate_path days ?p ?o ?g1] =>
        specialize (IH p o g1 n); destruct (simulate_path days p o g1) as [daily g2]
    end.
    cbn [snd] in *. rewrite IH. reflexivity.
Qed.

Lemma simulate_path_ext (days : nat) :
  forall (path obs_fwd : Q) (g1 g2 : rng),
    (forall n, (n < days)%nat -> g1 n = g2 n) ->
    fst (simulate_path days path obs_fwd g1)
    = fst (simulate_path days path obs_fwd g2).
Proof.
  induction days as [|days IH]; intros path obs_fwd g1 g2 Hagree.
  - reflexivity.
  - cbn [simulate_path]. unfold uniform, random.
    rewrite (Hagree 0%nat) by lia.
    match goal with
    | |- fst (let (_, _) := simulate_path days ?p ?o ?h1 in _)
         = fst (let (_, _) := simulate_path days ?p ?o ?h2 in _) =>
        specialize (IH p o h1 h2);
        destruct (simulate_path days p o h1) as [d1 k1];
        destruct (simulate_path days p o h2) as [d2 k2]
    end.
    cbn [fst] in *. rewrite IH; [reflexivity|].
    intros n Hn. apply Hagree. lia.
Qed.

Lemma simulate_runs_ext (sims days : nat) (spot0 obs_fwd : Q) :
  forall g1 g2 : rng,
    (forall n, (n < sims * days)%nat -> g1 n = g2 n) ->
    fst (simulate_runs sims days spot0 obs_fwd g1)
    = fst (simulate_runs sims days spot0 obs_fwd g2).
Proof.
  induction sims as [|sims IH]; intros g1 g2 Hagree.
  - reflexivity.
  - cbn [simulate_runs].
    pose proof (simulate_path_ext days spot0 obs_fwd g1 g2) as Hpath.
    pose proof (simulate_path_draws days spot0 obs_fwd g1) as Hk1.
    pose proof (simulate_path_draws days spot0 obs_fwd g2) as Hk2.
    destruct (simulate_path days spot0 obs_fwd g1) as [d1 k1].
    destruct (simulate_path days spot0 obs_fwd g2) as [d2 k2].
    cbn [fst snd] in *.
    specialize (IH k1 k2).
    destruct (simulate_runs sims days spot0 obs_fwd k1) as [p1 h1].
    destruct (simulate_runs sims days spot0 obs_fwd k2) as [p2 h2].
    cbn [fst] in *.
    rewrite Hpath, IH; [reflexivity| |].
    + intros n Hn. rewrite Hk1, Hk2. apply Hagree. simpl. lia.
    + intros n Hn. apply Hagree. simpl. lia.
Qed.

(** C8, as the code has it. [simulate_pnl] takes no seed: its matrix is
    fixed by its four arguments and the next [sims * days] draws of the
    module-level generator.  Two runs with the same arguments agree whenever
    the generator delivers the same draws to both, and so they do when the
    caller reseeds it with the same seed before each run, whatever state it
    was in. *)
Theorem simulate_pnl_same_draws (spot0 obs_fwd : Q) (days sims : Z) :
  (forall g1 g2 : rng,
      (forall n, (n < Z.to_nat sims * Z.to_nat days)%nat -> g1 n = g2 n) ->
      fst (simulate_pnl spot0 obs_fwd days sims g1)
      = fst (simulate_pnl spot0 obs_fwd days sims g2))
  /\ (forall (seed : Z -> rng) (s : Z) (g1 g2 : rng),
         fst (seeded_simulate_pnl seed s spot0 obs_fwd days sims g1)
         = fst (seeded_simulate_pnl seed s spot0 obs_fwd days sims g2)).
Proof.
  split.
  - intros g1 g2 Hagree. unfold simulate_pnl.
    apply simulate_runs_ext. exact Hagree.
  - intros seed s g1 g2. reflexivity.
Qed.

(** Two generators that differ only after their sixth draw give the same
    two paths of three days. *)
Lemma simulate_pnl_same_draws_example :
  fst (simulate_pnl 1 1 3 2 example_rng)
  = fst (simulate_pnl 1 1 3 2
           (fun n => if (n <? 6)%nat then example_rng n else 0)).
Proof.
  apply (proj1 (simulate_pnl_same_draws 1 1 3 2)).
  intros n Hn. change (Z.to_nat 2 * Z.to_nat 3)%nat with 6%nat in Hn.
  destruct (n <? 6)%nat eqn:Hlt; [reflexivity|].
  apply Nat.ltb_ge in Hlt. lia.
Defined.

(** C8, the claim refuted.  A second call of [simulate_pnl] with the same
    four arguments continues the generator where the first call left it and
    returns another matrix: from [example_rng], -5000 and then -4000. *)
Lemma simulate_pnl_successive_runs_differ :
  exists a b,
    fst (simulate_pnl 1 1 1 1 example_rng) = [[a]]
    /\ fst (simulate_pnl 1 1 1 1 (snd (simulate_pnl 1 1 1 1 example_rng)))
       = [[b]]
    /\ a == - (5000) /\ b == - (4000) /\ ~ a == b.
Proof.
  eexists. eexists.
  split; [reflexivity|]. split; [reflexivity|].
  split; [vm_compute; reflexivity|].
  split; [vm_compute; reflexivity|].
  vm_compute. discriminate.
Qed.

(** * Properties of the rest of the code *)

(** ** cip.py: the forward and the deviation as numbers *)

Lemma Qmult_pos_pos (a b : Q) : 0 < a -> 0 < b -> 0 < a * b.
Proof. intros Ha Hb. nra. Qed.

Lemma Qinv_pos (a : Q) : 0 < a -> 0 < / a.
Proof. intros Ha. apply Qinv_lt_0_compat. exact Ha. Qed.

(** The forward minus the spot is a positive multiple of the difference of
    the two rates. *)
Lemma forward_minus_spot (spot r_dom r_for : Q) (tenor_days : Z) :
  ~ 1 + r_for * inject_Z tenor_days / 360 == 0 ->
  spot * (1 + r_dom * inject_Z tenor_days / 360)
  / (1 + r_for * inject_Z tenor_days / 360) - spot
  == spot * inject_Z tenor_days / 360 * / (1 + r_for * inject_Z tenor_days / 360)
     * (r_dom - r_for).
Proof.
  intros Hden. field. intros E. apply Hden.
  setoid_replace (1 + r_for * inject_Z tenor_days / 360)
    with ((360 + r_for * inject_Z tenor_days) / 360) by field.
  rewrite E. reflexivity.
Qed.







(** ** app.py: one pair of the dashboard *)

Lemma classify_Qeq (x y t : Q) : x == y -> classify x t = classify y t.
Proof.
  intros E. unfold classify. cbn [fltb Q_PyFloat].
  assert (H1 : Qle_bool x t = Qle_bool y t).
  { destruct (Qle_bool x t) eqn:Hx, (Qle_bool y t) eqn:Hy; try reflexivity.
    - apply Qle_bool_iff in Hx. rewrite E in Hx. apply Qle_bool_iff in Hx.
      congruence.
    - apply Qle_bool_iff in Hy. rewrite <- E in Hy. apply Qle_bool_iff in Hy.
      congruence. }
  assert (H2 : Qle_bool (- t) x = Qle_bool (- t) y).
  { destruct (Qle_bool (- t) x) eqn:Hx, (Qle_bool (- t) y) eqn:Hy; try reflexivity.
    - apply Qle_bool_iff in Hx. rewrite E in Hx. apply Qle_bool_iff in Hx.
      congruence.
    - apply Qle_bool_iff in Hy. rewrite <- E in Hy. apply Qle_bool_iff in Hy.
      congruence. }
  rewrite H1, H2. reflexivity.
Qed.

(** The theoretical forward of the dashboard, with its literal rates. *)
Lemma dashboard_theo_fwd (spot_mid : Q) (tenor : Z) :
  (0 <= tenor)%Z ->
  exists theo,
    theoretical_forward spot_mid (25 # 1000) (5 # 1000) tenor = Return theo
    /\ (theo == 0 <-> spot_mid == 0).
Proof.
  intros Ht.
  assert (Hq : 0 <= inject_Z tenor).
  { change 0 with (inject_Z 0). rewrite <- Zle_Qle. exact Ht. }
  assert (Hkf : 0 < 360 + (5 # 1000) * inject_Z tenor) by nra.
  assert (Hkd : 0 < 360 + (25 # 1000) * inject_Z tenor) by nra.
  assert (Hden : ~ 1 + (5 # 1000) * inject_Z tenor / 360 == 0).
  { intros E. assert (E' : 360 + (5 # 1000) * inject_Z tenor == 0).
    { setoid_replace (360 + (5 # 1000) * inject_Z tenor)
        with (360 * (1 + (5 # 1000) * inject_Z tenor / 360)) by field.
      rewrite E. reflexivity. }
    lra. }
  eexists. split; [apply theoretical_forward_formula_Q; exact Hden|].
  set (kf := 360 + (5 # 1000) * inject_Z tenor) in *.
  set (kd := 360 + (25 # 1000) * inject_Z tenor) in *.
  assert (Heq : spot_mid * (1 + (25 # 1000) * inject_Z tenor / 360)
                / (1 + (5 # 1000) * inject_Z tenor / 360)
                == spot_mid * (kd * / kf)).
  { unfold kd, kf. field. fold kf. lra. }
  rewrite Heq.
  assert (Hpos : 0 < kd * / kf).
  { apply Qmult_pos_pos; [exact Hkd | apply Qinv_pos; exact Hkf]. }
  split; intros E.
  - apply Qmult_integral in E. destruct E as [E|E]; [exact E|lra].
  - rewrite E. ring.
Qed.





(** ** simulate_forward.py *)

(** X6. For a threshold that is not negative, the alert of
    simulate_forward.py and the dashboard's classifier agree: an alert to
    sell the forward exactly where the dashboard says "Rich", an alert to
    buy exactly where it says "Cheap", and no alert exactly where it says
    "No arbitrage". *)
Theorem arb_signal_agrees_with_classify (dev t : Q) :
  0 <= t ->
  (arb_signal dev t = Some Sell_forward_Buy_spot
   <-> classify dev t = Rich_Sell_forward)
  /\ (arb_signal dev t = Some Buy_forward_Sell_spot
      <-> classify dev t = Cheap_Buy_forward)
  /\ (arb_signal dev t = None <-> classify dev t = No_arbitrage).
Proof.
  intros Ht.
  destruct (classify_cases dev t Ht) as (Hsell & Hbuy & Hnone).
  rewrite Hsell, Hbuy, Hnone.
  unfold arb_signal. cbn [fltb Q_PyFloat].
  destruct (negb (Qle_bool (Qabs dev) t)) eqn:Habs.
  - apply Qltb_true_iff in Habs.
    destruct (negb (Qle_bool dev 0)) eqn:Hpos.
    + apply Qltb_true_iff in Hpos.
      rewrite Qabs_pos in Habs by lra.
      repeat split; intros; try discriminate; try lra; reflexivity.
    + apply Qltb_false_iff in Hpos.
      rewrite Qabs_neg in Habs by lra.
      repeat split; intros; try discriminate; try lra; reflexivity.
  - apply Qltb_false_iff in Habs. apply Qabs_Qle_condition in Habs.
    repeat split; intros; try discriminate; try lra; reflexivity.
Qed.

Lemma arb_signal_agrees_with_classify_example :
  arb_signal (- (3)) 2 = Some Buy_forward_Sell_spot
  <-> classify (- (3)) 2 = Cheap_Buy_forward.
Proof.
  apply (arb_signal_agrees_with_classify (- (3)) 2).
  unfold Qle. simpl. lia.
Defined.

(** ** The data frame, column by column *)

Lemma mapM_Forall2 {A B : Type} (f : A -> result B) (l : list A) (ys : list B) :
  mapM f l = Return ys -> Forall2 (fun x y => f x = Return y) l ys.
Proof.
  revert ys. induction l as [|x l IH]; intros ys Hrun; cbn [mapM] in Hrun.
  - injection Hrun as <-. constructor.
  - destruct (f x) as [y|e] eqn:Hx; cbn [bind] in Hrun; [|discriminate].
    destruct (mapM f l) as [ys'|e]; cbn [bind] in Hrun; [|discriminate].
    injection Hrun as <-. constructor; [exact Hx | apply IH; reflexivity].
Qed.

Lemma make_rows_In_strong (sig : cell -> Z) (p : params) (R : Z * Q -> Q -> Prop)
    (r : Df.row) :
  forall (spot : series) (swap : list cell) (theo : list Q) (ex : list cell),
    Forall2 R spot theo ->
    In r (make_rows sig p spot swap theo ex) ->
    exists d s sw th e,
      r = make_row sig p d s sw th e
      /\ In (d, s) spot /\ R (d, s) th /\ In sw swap /\ In e ex.
Proof.
  induction spot as [|[d s] spot IH]; intros swap theo ex HR Hin.
  - contradiction.
  - destruct swap as [|sw swap]; [contradiction|].
    destruct theo as [|th theo]; [contradiction|].
    destruct ex as [|e ex]; [contradiction|].
    inversion HR as [|x y l l' Hxy HR']; subst.
    destruct Hin as [Heq|Hin].
    + exists d, s, sw, th, e. repeat split; try (left; reflexivity).
      * symmetry. exact Heq.
      * exact Hxy.
    + destruct (IH swap theo ex HR' Hin)
        as (d' & s' & sw' & th' & e' & Hr & H1 & H2 & H3 & H4).
      exists d', s', sw', th', e'. repeat split; try (right; assumption); assumption.
Qed.

Lemma lookup_fin_or_nan (d : Z) (s : series) : fin_or_nan (lookup d s).
Proof.
  induction s as [|[d' v] s IH]; cbn [lookup].
  - left. reflexivity.
  - destruct (d =? d')%Z; [right; eexists; reflexivity | exact IH].
Qed.

Lemma ffill_from_fin_or_nan (col : list cell) :
  forall last, fin_or_nan last -> Forall fin_or_nan col ->
               Forall fin_or_nan (ffill_from last col).
Proof.
  induction col as [|c col IH]; intros last Hlast Hcol; cbn [ffill_from].
  - constructor.
  - inversion Hcol as [|? ? Hc Hcol']; subst.
    assert (Hv : fin_or_nan (if is_nan c then last else c)).
    { destruct (is_nan c); assumption. }
    constructor; [exact Hv | apply IH; assumption].
Qed.

Lemma swap_column_fin_or_nan (swap_pts : series) (index : list Z) :
  Forall fin_or_nan (ffill (reindex swap_pts index)).
Proof.
  apply ffill_from_fin_or_nan; [left; reflexivity|].
  unfold reindex. apply Forall_forall. intros c Hc.
  apply in_map_iff in Hc. destruct Hc as (d & <- & _).
  apply lookup_fin_or_nan.
Qed.

Lemma shift_fin_or_nan (periods : Z) (col : list cell) :
  Forall fin_or_nan col -> Forall fin_or_nan (shift periods col).
Proof.
  intros Hcol. unfold shift. apply Forall_forall. intros c Hc.
  apply in_map_iff in Hc. destruct Hc as (i & <- & _).
  destruct (Z.of_nat i - periods <? 0)%Z; [left; reflexivity|].
  destruct (nth_in_or_default (Z.to_nat (Z.of_nat i - periods)) col NaN) as [Hin|Hd].
  - rewrite Forall_forall in Hcol. apply Hcol. exact Hin.
  - left. exact Hd.
Qed.

(** Every row of a frame: which spot, theoretical forward, swap points and
    exit price it was made of. *)
Lemma build_frame_rows_strong (sig : cell -> Z) (p : params)
    (spot swap_pts : series) (df : list Df.row) (r : Df.row) :
  build_frame sig p spot swap_pts = Return df ->
  In r df ->
  exists d s sw th e,
    r = make_row sig p d s sw th e
    /\ In (d, s) spot
    /\ theoretical_forward s (r_dom p) (r_for p) (tenor_days p) = Return th
    /\ fin_or_nan sw /\ In sw (ffill (reindex swap_pts (map fst spot)))
    /\ fin_or_nan e.
Proof.
  unfold build_frame. intros Hrun Hin.
  destruct (mapM _ spot) as [theo|err] eqn:Htheo; cbn [bind] in Hrun; [|discriminate].
  injection Hrun as <-.
  apply mapM_Forall2 in Htheo.
  destruct (make_rows_In_strong sig p
              (fun ds th => theoretical_forward (snd ds) (r_dom p) (r_for p)
                              (tenor_days p) = Return th)
              r spot _ theo _ Htheo Hin)
    as (d & s & sw & th & e & Hr & Hds & Hth & Hsw & He).
  exists d, s, sw, th, e. repeat split; try assumption.
  - pose proof (swap_column_fin_or_nan swap_pts (map fst spot)) as Hall.
    rewrite Forall_forall in Hall. apply Hall. exact Hsw.
  - assert (Hall : Forall fin_or_nan
                     (shift (- tenor_days p) (map (fun ds => Fin (snd ds)) spot))).
    { apply shift_fin_or_nan. apply Forall_forall. intros c Hc.
      apply in_map_iff in Hc. destruct Hc as (x & <- & _).
      right. eexists. reflexivity. }
    rewrite Forall_forall in Hall. apply Hall. exact He.
Qed.

(** The observed forward and the PnL of a row are finite or NaN. *)
Lemma obs_fwd_fin_or_nan (s : Q) (sw : cell) (t : Z) :
  fin_or_nan sw ->
  fin_or_nan (cadd (Fin s) (cdiv (cmul sw (of_int64 t)) (of_int64 360))).
Proof.
  intros [-> | [q ->]].
  - left. reflexivity.
  - right. eexists. reflexivity.
Qed.

Lemma estimate_pnl_fin_or_nan (sg : Z) (obs ex : cell) (n sp st : Q) :
  fin_or_nan obs -> fin_or_nan ex ->
  fin_or_nan (estimate_pnl sg obs ex n sp st).
Proof.
  intros [-> | [o ->]] [-> | [e ->]]; try (left; reflexivity).
  right. apply estimate_pnl_finite.
Qed.

Lemma estimate_pnl_nan_exit (sg : Z) (obs : cell) (n sp st : Q) :
  estimate_pnl sg obs NaN n sp st = NaN.
Proof. reflexivity. Qed.

(** ** The rows without an exit price *)

Lemma filter_map_all_nan {A : Type} (f : A -> cell) (l : list A) :
  (forall x, In x l -> f x = NaN) ->
  filter (fun c => negb (is_nan c)) (map f l) = [].
Proof.
  induction l as [|x l IH]; intros Hall; cbn [map filter].
  - reflexivity.
  - rewrite (Hall x (or_introl eq_refl)). cbn [is_nan negb].
    apply IH. intros y Hy. apply Hall. right. exact Hy.
Qed.

Lemma shift_length (periods : Z) (col : list cell) :
  List.length (shift periods col) = List.length col.
Proof. unfold shift. rewrite length_map, length_seq. reflexivity. Qed.

(** Shifting back by [k] rows leaves at most [n - k] values. *)
Lemma shift_back_values (k : nat) (col : list cell) :
  (List.length (filter (fun c => negb (is_nan c)) (shift (- Z.of_nat k) col))
   <= List.length col - k)%nat.
Proof.
  unfold shift. set (n := List.length col).
  set (f := fun i : nat =>
              if (Z.of_nat i - - Z.of_nat k <? 0)%Z then NaN
              else nth (Z.to_nat (Z.of_nat i - - Z.of_nat k)) col NaN).
  assert (Htail : forall i, (n - k <= i)%nat -> f i = NaN).
  { intros i Hi. unfold f.
    destruct (Z.of_nat i - - Z.of_nat k <? 0)%Z; [reflexivity|].
    apply nth_overflow. fold n. lia. }
  replace n with ((n - k) + (n - (n - k)))%nat at 1 by lia.
  rewrite seq_app, map_app, filter_app, length_app.
  rewrite (filter_map_all_nan f (seq (0 + (n - k)) (n - (n - k)))).
  - cbn [List.length]. rewrite Nat.add_0_r.
    etransitivity; [apply filter_length_le|].
    rewrite length_map, length_seq. lia.
  - intros i Hi. apply in_seq in Hi. apply Htail. lia.
Qed.

Lemma dropna_le_exit_values (sig : cell -> Z) (p : params) :
  forall (spot : series) (swap : list cell) (theo : list Q) (ex : list cell),
    (List.length (dropna_pnl (make_rows sig p spot swap theo ex))
     <= List.length (filter (fun c => negb (is_nan c)) ex))%nat.
Proof.
  induction spot as [|[d s] spot IH]; intros swap theo ex.
  - cbn. lia.
  - destruct swap as [|sw swap]; [cbn; lia|].
    destruct theo as [|th theo]; [cbn; lia|].
    destruct ex as [|e ex]; [cbn; lia|].
    cbn [make_rows]. unfold dropna_pnl in *. cbn [filter].
    specialize (IH swap theo ex).
    destruct e as [q| | |]; cbn [is_nan negb].
    4: { cbn [Df.pnl make_row]. rewrite estimate_pnl_nan_exit.
         cbn [is_nan negb]. exact IH. }
    all: match goal with
         | |- context [if ?b then _ else _] => destruct b
         end; cbn [List.length]; lia.
Qed.

(** X7. A run keeps no row of the last [tenor_days] days: the complete rows,
    and so the trades, number at most the length of the history minus the
    tenor; a history of at most [tenor_days] rows gives no trade, a total
    PnL of 0, a win rate of 0 and an average of 0. *)
Theorem incomplete_rows_are_dropped
    (spot swap_pts : series) (threshold_bps : Q) (p : params) (m : metrics) :
  run_backtest spot swap_pts threshold_bps p = Return m ->
  (0 <= tenor_days p)%Z ->
  (num_trades m <= List.length spot - Z.to_nat (tenor_days p))%nat
  /\ ((List.length spot <= Z.to_nat (tenor_days p))%nat ->
      num_trades m = 0%nat /\ total_pnl m = Fin 0 /\ win_rate m = 0
      /\ avg_pnl m = Fin 0).
Proof.
  intros Hrun Htenor.
  destruct (run_backtest_frame spot swap_pts threshold_bps p m Hrun)
    as (df & Hdf & ->).
  assert (Hlen : (List.length (dropna_pnl df)
                  <= List.length spot - Z.to_nat (tenor_days p))%nat).
  { unfold build_frame in Hdf.
    destruct (mapM _ spot) as [theo|e]; cbn [bind] in Hdf; [|discriminate].
    injection Hdf as <-.
    etransitivity; [apply dropna_le_exit_values|].
    rewrite <- (Z2Nat.id (tenor_days p)) by exact Htenor.
    rewrite Nat2Z.id.
    etransitivity; [apply shift_back_values|].
    rewrite length_map. lia. }
  split.
  - cbn [num_trades summarize].
    pose proof (count_rows_le is_trade (dropna_pnl df)). lia.
  - intros Hshort.
    assert (Hnil : dropna_pnl df = []).
    { apply length_zero_iff_nil. lia. }
    rewrite Hnil. repeat split.
Qed.

Lemma incomplete_rows_are_dropped_example :
  (num_trades example_metrics <= 3 - 1)%nat.
Proof.
  assert (Hrun : run_backtest example_spot example_swap_pts 1 example_params
                 = Return example_metrics) by (vm_compute; reflexivity).
  assert (Ht : (0 <= tenor_days example_params)%Z) by (vm_compute; discriminate).
  exact (proj1 (incomplete_rows_are_dropped example_spot example_swap_pts 1
                  example_params example_metrics Hrun Ht)).
Defined.

(** ** A history without a signal *)

Lemma within_threshold_no_signal (t : Q) (dev : cell) :
  within_threshold t dev -> assign_signal t dev = 0%Z.
Proof.
  intros [Hgt Hlt]. unfold assign_signal. rewrite Hgt, Hlt. reflexivity.
Qed.

Lemma csum_from_zero (col : list cell) :
  Forall (fun c => ceq c (Fin 0)) col ->
  forall a, a == 0 -> ceq (fold_left cadd col (Fin a)) (Fin 0).
Proof.
  induction col as [|c col IH]; intros Hall a Ha; cbn [fold_left].
  - exact Ha.
  - inversion Hall as [|? ? Hc Hall']; subst.
    destruct c as [q| | |]; simpl in Hc; try contradiction.
    cbn [cadd]. apply IH; [exact Hall'|]. rewrite Ha, Hc. reflexivity.
Qed.

(** X8. When no deviation of the history is beyond the threshold,
    [run_backtest] reports no trade, a total PnL of zero, a win rate of 0
    and an average of 0 (the stop amount taken non-negative). *)
Theorem no_deviation_no_trades
    (spot swap_pts : series) (threshold_bps : Q) (p : params) (df : list Df.row) :
  build_frame (assign_signal threshold_bps) p spot swap_pts = Return df ->
  Forall (fun r => within_threshold threshold_bps (Df.dev_bps r)) df ->
  0 <= stop_loss_bps p / 10000 * notional p ->
  exists m,
    run_backtest spot swap_pts threshold_bps p = Return m
    /\ num_trades m = 0%nat
    /\ ceq (total_pnl m) (Fin 0)
    /\ win_rate m = 0
    /\ avg_pnl m = Fin 0.
Proof.
  intros Hdf Hwithin Hstop.
  assert (Hsig : forall r, In r df -> Df.signal r = 0%Z).
  { intros r Hin.
    destruct (build_frame_rows _ _ _ _ _ _ Hdf Hin) as (d & s & sw & th & e & Hr).
    rewrite Forall_forall in Hwithin. specialize (Hwithin r Hin).
    subst r. cbn [Df.signal Df.dev_bps make_row] in *.
    apply within_threshold_no_signal. exact Hwithin. }
  assert (Hzero : forall r, In r (dropna_pnl df) -> ceq (Df.pnl r) (Fin 0)).
  { intros r Hin. unfold dropna_pnl in Hin. apply filter_In in Hin.
    destruct Hin as [Hin Hn]. apply negb_true_iff in Hn.
    pose proof (Hsig r Hin) as Hs.
    destruct (build_frame_rows _ _ _ _ _ _ Hdf Hin) as (d & s & sw & th & e & Hr).
    subst r. cbn [Df.signal Df.pnl make_row] in *. rewrite Hs in *.
    apply estimate_pnl_no_action; assumption. }
  assert (Hcount : count_rows is_trade (dropna_pnl df) = 0%nat).
  { unfold count_rows. apply length_zero_iff_nil.
    rewrite (filter_ext_in is_trade (fun _ => false)).
    - clear. induction (dropna_pnl df) as [|x l IH]; [reflexivity | exact IH].
    - intros r Hin. unfold dropna_pnl in Hin. apply filter_In in Hin.
      unfold is_trade. rewrite (Hsig r (proj1 Hin)). reflexivity. }
  exists (summarize (dropna_pnl df)).
  split; [unfold run_backtest; rewrite Hdf; reflexivity|].
  cbn [num_trades total_pnl win_rate avg_pnl summarize]. unfold win_rate_of.
  rewrite Hcount. cbn [Nat.eqb].
  repeat split.
  unfold csum. apply csum_from_zero; [|reflexivity].
  apply Forall_forall. intros c Hc. apply in_map_iff in Hc.
  destruct Hc as (r & <- & Hin). apply Hzero. exact Hin.
Qed.

Lemma no_deviation_no_trades_example :
  exists m,
    run_backtest example_spot (zero_series [0%Z; 1%Z; 2%Z]) 1 example_params
    = Return m
    /\ num_trades m = 0%nat
    /\ ceq (total_pnl m) (Fin 0).
Proof.
  destruct (no_deviation_no_trades example_spot (zero_series [0%Z; 1%Z; 2%Z]) 1
              example_params
              (make_rows (assign_signal 1) example_params example_spot
                 [Fin 0; Fin 0; Fin 0]
                 [100 * (1 + 0 * inject_Z 1 / 360) / (1 + 0 * inject_Z 1 / 360);
                  100 * (1 + 0 * inject_Z 1 / 360) / (1 + 0 * inject_Z 1 / 360);
                  100 * (1 + 0 * inject_Z 1 / 360) / (1 + 0 * inject_Z 1 / 360)]
                 [Fin 100; Fin 100; NaN]))
    as (m & Hm & Hn & Ht & _).
  - reflexivity.
  - repeat constructor.
  - vm_compute. discriminate.
  - exists m. split; [exact Hm|]. split; [exact Hn | exact Ht].
Defined.

(** ** The number of trades along the grid of thresholds *)

Lemma assign_signal_wider (t1 t2 : Q) (dev : cell) :
  0 <= t1 -> t1 <= t2 ->
  assign_signal t2 dev <> 0%Z ->
  assign_signal t1 dev = assign_signal t2 dev.
Proof.
  intros H1 H12. destruct dev as [x| | |]; try reflexivity.
  rewrite !assign_signal_Fin.
  destruct (negb (Qle_bool (- t2) x)) eqn:Hb2.
  - apply Qltb_true_iff in Hb2.
    destruct (negb (Qle_bool (- t1) x)) eqn:Hb1; [reflexivity|].
    apply Qltb_false_iff in Hb1. exfalso. lra.
  - apply Qltb_false_iff in Hb2.
    destruct (negb (Qle_bool x t2)) eqn:Hs2.
    + apply Qltb_true_iff in Hs2.
      destruct (negb (Qle_bool (- t1) x)) eqn:Hb1.
      * apply Qltb_true_iff in Hb1. exfalso. lra.
      * destruct (negb (Qle_bool x t1)) eqn:Hs1; [reflexivity|].
        apply Qltb_false_iff in Hs1. exfalso. lra.
    + intros Hne. contradiction.
Qed.

Lemma trade_count_cons (r : Df.row) (rows : list Df.row) :
  trade_count (r :: rows)
  = ((if negb (is_nan (Df.pnl r)) && is_trade r then 1 else 0)
     + trade_count rows)%nat.
Proof.
  unfold trade_count, count_rows, dropna_pnl. cbn [filter].
  destruct (negb (is_nan (Df.pnl r))); cbn [andb filter]; [|reflexivity].
  destruct (is_trade r); reflexivity.
Qed.

Lemma trade_count_wider (sig1 sig2 : cell -> Z) (p : params) :
  (forall dev, sig2 dev <> 0%Z -> sig1 dev = sig2 dev) ->
  forall (spot : series) (swap : list cell) (theo : list Q) (ex : list cell),
    (trade_count (make_rows sig2 p spot swap theo ex)
     <= trade_count (make_rows sig1 p spot swap theo ex))%nat.
Proof.
  intros Hsig. induction spot as [|[d s] spot IH]; intros swap theo ex.
  - cbn. lia.
  - destruct swap as [|sw swap]; [cbn; lia|].
    destruct theo as [|th theo]; [cbn; lia|].
    destruct ex as [|e ex]; [cbn; lia|].
    cbn [make_rows]. rewrite !trade_count_cons.
    specialize (IH swap theo ex).
    unfold is_trade, make_row. cbn [Df.signal Df.pnl].
    match goal with |- context [sig2 ?dev] => specialize (Hsig dev);
      set (sg2 := sig2 dev) in *; set (sg1 := sig1 dev) in * end.
    destruct (sg2 =? 0)%Z eqn:Hz.
    + rewrite andb_false_r. lia.
    + pose proof Hz as Hne. apply Z.eqb_neq in Hne.
      rewrite (Hsig Hne), Hz. lia.
Qed.

Lemma build_frame_make_rows (sig : cell -> Z) (p : params)
    (spot swap_pts : series) (df : list Df.row) :
  build_frame sig p spot swap_pts = Return df ->
  exists theo,
    mapM (fun ds => theoretical_forward (snd ds) (r_dom p) (r_for p)
                      (tenor_days p)) spot = Return theo
    /\ df = make_rows sig p spot (ffill (reindex swap_pts (map fst spot))) theo
              (shift (- tenor_days p) (map (fun ds => Fin (snd ds)) spot)).
Proof.
  unfold build_frame. intros Hrun.
  destruct (mapM _ spot) as [theo|e]; cbn [bind] in Hrun; [|discriminate].
  injection Hrun as <-. exists theo. split; reflexivity.
Qed.

(** X9. Raising the threshold never adds a trade: for thresholds
    [0 <= t1 <= t2] and otherwise equal inputs, [run_backtest] counts at
    most as many trades at [t2] as at [t1]; and [backtest], whose threshold
    is zero, counts at least as many as [run_backtest] at any threshold that
    is not negative. *)
Theorem num_trades_antitone_in_threshold
    (spot swap_pts : series) (t1 t2 : Q) (p : params) (m1 m2 : metrics) :
  0 <= t1 -> t1 <= t2 ->
  run_backtest spot swap_pts t1 p = Return m1 ->
  run_backtest spot swap_pts t2 p = Return m2 ->
  (num_trades m2 <= num_trades m1)%nat
  /\ (forall m0, backtest spot swap_pts p = Return m0 ->
                 (num_trades m1 <= num_trades m0)%nat).
Proof.
  intros H1 H12 Hrun1 Hrun2.
  destruct (run_backtest_frame _ _ _ _ _ Hrun1) as (df1 & Hdf1 & ->).
  destruct (run_backtest_frame _ _ _ _ _ Hrun2) as (df2 & Hdf2 & ->).
  destruct (build_frame_make_rows _ _ _ _ _ Hdf1) as (theo1 & Ht1 & ->).
  destruct (build_frame_make_rows _ _ _ _ _ Hdf2) as (theo2 & Ht2 & ->).
  rewrite Ht1 in Ht2. injection Ht2 as <-.
  cbn [num_trades summarize]. split.
  - apply (trade_count_wider (assign_signal t1) (assign_signal t2)).
    intros dev. apply assign_signal_wider; assumption.
  - intros m0 Hrun0.
    assert (Hrun0' : run_backtest spot swap_pts 0 p = Return m0) by exact Hrun0.
    destruct (run_backtest_frame _ _ _ _ _ Hrun0') as (df0 & Hdf0 & ->).
    destruct (build_frame_make_rows _ _ _ _ _ Hdf0) as (theo0 & Ht0 & ->).
    rewrite Ht1 in Ht0. injection Ht0 as <-.
    cbn [num_trades summarize].
    apply (trade_count_wider (assign_signal 0) (assign_signal t1)).
    intros dev. apply assign_signal_wider; [lra | exact H1].
Qed.

Lemma num_trades_antitone_in_threshold_example :
  exists m2,
    run_backtest example_spot example_swap_pts 200 example_params = Return m2
    /\ (num_trades m2 <= num_trades example_metrics)%nat.
Proof.
  assert (Hrun1 : run_backtest example_spot example_swap_pts 1 example_params
                  = Return example_metrics) by (vm_compute; reflexivity).
  assert (H1 : 0 <= 1) by (unfold Qle; simpl; lia).
  assert (H12 : 1 <= 200) by (unfold Qle; simpl; lia).
  destruct (run_backtest example_spot example_swap_pts 200 example_params)
    as [m2|e] eqn:Hrun2; [|vm_compute in Hrun2; discriminate Hrun2].
  exists m2. split; [reflexivity|].
  exact (proj1 (num_trades_antitone_in_threshold example_spot example_swap_pts
                  1 200 example_params example_metrics m2 H1 H12 Hrun1 Hrun2)).
Defined.

(** ** The total PnL along the grid of spreads and stops *)

(** A dearer spread or a wider stop never raises the PnL of a row. *)
Lemma estimate_pnl_costs (sg : Z) (obs ex : cell) (n sp1 sp2 st1 st2 : Q) :
  fin_or_nan obs -> fin_or_nan ex ->
  0 <= n -> sp1 <= sp2 -> st1 <= st2 ->
  (estimate_pnl sg obs ex n sp1 st1 = NaN /\ estimate_pnl sg obs ex n sp2 st2 = NaN)
  \/ (exists q1 q2,
         estimate_pnl sg obs ex n sp1 st1 = Fin q1
         /\ estimate_pnl sg obs ex n sp2 st2 = Fin q2
         /\ q2 <= q1).
Proof.
  intros [-> | [o ->]] [-> | [e ->]] Hn Hsp Hst;
    try (left; split; reflexivity).
  right.
  unfold estimate_pnl, stop_loss, net_pnl_of, raw_pnl_of, of_int64. simpl.
  set (a := inject_Z (Z.abs sg)).
  assert (Ha : 0 <= a).
  { unfold a. change 0 with (inject_Z 0). rewrite <- Zle_Qle. apply Z.abs_nonneg. }
  set (raw := inject_Z sg * (e + - o) * n).
  assert (Hc : sp1 / 10000 * n <= sp2 / 10000 * n).
  { apply Qmult_le_compat_r; [|exact Hn].
    apply Qmult_le_compat_r; [exact Hsp | discriminate]. }
  assert (Hs : st1 / 10000 * n <= st2 / 10000 * n).
  { apply Qmult_le_compat_r; [|exact Hn].
    apply Qmult_le_compat_r; [exact Hst | discriminate]. }
  set (c1 := sp1 / 10000 * n) in *. set (c2 := sp2 / 10000 * n) in *.
  set (s1 := st1 / 10000 * n) in *. set (s2 := st2 / 10000 * n) in *.
  assert (Hac : a * c1 <= a * c2) by nra.
  destruct (negb (Qle_bool (- s1) (raw + - (a * c1)))) eqn:H1;
    destruct (negb (Qle_bool (- s2) (raw + - (a * c2)))) eqn:H2;
    eexists; eexists; (split; [reflexivity|]); (split; [reflexivity|]).
  - lra.
  - apply Qltb_true_iff in H1. lra.
  - apply Qltb_false_iff in H1. lra.
  - lra.
Qed.

Lemma fold_cadd_fin_le (l2 l1 : list cell) :
  Forall2 fin_le l2 l1 ->
  forall a2 a1, a2 <= a1 ->
    fin_le (fold_left cadd l2 (Fin a2)) (fold_left cadd l1 (Fin a1)).
Proof.
  induction 1 as [|c2 c1 l2 l1 (q2 & q1 & -> & -> & Hq) _ IH];
    intros a2 a1 Ha; cbn [fold_left].
  - exists a2, a1. repeat split. exact Ha.
  - cbn [cadd]. apply IH. lra.
Qed.

Lemma costs_rows (sig : cell -> Z) (p1 p2 : params) :
  same_market p1 p2 ->
  0 <= notional p1 ->
  spread_bps p1 <= spread_bps p2 ->
  stop_loss_bps p1 <= stop_loss_bps p2 ->
  forall (spot : series) (swap : list cell) (theo : list Q) (ex : list cell),
    Forall fin_or_nan swap -> Forall fin_or_nan ex ->
    Forall2 fin_le
      (map Df.pnl (dropna_pnl (make_rows sig p2 spot swap theo ex)))
      (map Df.pnl (dropna_pnl (make_rows sig p1 spot swap theo ex)))
    /\ map Df.signal (dropna_pnl (make_rows sig p2 spot swap theo ex))
       = map Df.signal (dropna_pnl (make_rows sig p1 spot swap theo ex)).
Proof.
  intros (Ht & _ & _ & Hn) Hn0 Hsp Hst.
  induction spot as [|[d s] spot IH]; intros swap theo ex Hswap Hex.
  - split; [constructor | reflexivity].
  - destruct swap as [|sw swap]; [split; [constructor | reflexivity]|].
    destruct theo as [|th theo]; [split; [constructor | reflexivity]|].
    destruct ex as [|e ex]; [split; [constructor | reflexivity]|].
    inversion Hswap as [|? ? Hsw Hswap']; subst.
    inversion Hex as [|? ? He Hex']; subst.
    destruct (IH swap theo ex Hswap' Hex') as [IHp IHs].
    cbn [make_rows]. unfold dropna_pnl in *. cbn [filter].
    unfold make_row at 1 3 5 7. cbn [Df.pnl].
    rewrite <- Ht, <- Hn.
    match goal with
    | |- context [estimate_pnl ?sg ?obs e (notional p1) (spread_bps p1) (stop_loss_bps p1)] =>
        destruct (estimate_pnl_costs sg obs e (notional p1)
                    (spread_bps p1) (spread_bps p2)
                    (stop_loss_bps p1) (stop_loss_bps p2)
                    (obs_fwd_fin_or_nan s sw (tenor_days p1) Hsw) He Hn0 Hsp Hst)
          as [[E1 E2] | (q1 & q2 & E1 & E2 & Hq)]
    end; rewrite E1, E2; cbn [is_nan negb map].
    + split; assumption.
    + split.
      * constructor; [|exact IHp].
        unfold make_row. cbn [Df.pnl]. rewrite <- Ht, <- Hn. rewrite E1, E2.
        exists q2, q1. repeat split. exact Hq.
      * f_equal; [|exact IHs].
        unfold make_row. cbn [Df.signal]. rewrite <- Ht. reflexivity.
Qed.

Lemma count_trades_by_signal (rows : list Df.row) :
  count_rows is_trade rows
  = List.length (filter (fun z => negb (z =? 0)%Z) (map Df.signal rows)).
Proof.
  unfold count_rows, is_trade.
  induction rows as [|r rows IH]; cbn [filter map]; [reflexivity|].
  destruct (negb (Df.signal r =? 0)%Z); cbn [List.length]; rewrite IH; reflexivity.
Qed.

(** X10. Costs only cost: between two runs that differ in the spread and
    the stop alone, the one with the dearer spread and the wider stop has
    the same trades and a total PnL that is finite and no larger (the
    notional taken non-negative). *)
Theorem total_pnl_antitone_in_costs
    (spot swap_pts : series) (threshold_bps : Q) (p1 p2 : params)
    (m1 m2 : metrics) :
  same_market p1 p2 ->
  0 <= notional p1 ->
  spread_bps p1 <= spread_bps p2 ->
  stop_loss_bps p1 <= stop_loss_bps p2 ->
  run_backtest spot swap_pts threshold_bps p1 = Return m1 ->
  run_backtest spot swap_pts threshold_bps p2 = Return m2 ->
  num_trades m2 = num_trades m1
  /\ exists q1 q2,
       total_pnl m1 = Fin q1 /\ total_pnl m2 = Fin q2 /\ q2 <= q1.
Proof.
  intros Hsame Hn0 Hsp Hst Hrun1 Hrun2.
  destruct (run_backtest_frame _ _ _ _ _ Hrun1) as (df1 & Hdf1 & ->).
  destruct (run_backtest_frame _ _ _ _ _ Hrun2) as (df2 & Hdf2 & ->).
  destruct (build_frame_make_rows _ _ _ _ _ Hdf1) as (theo1 & Ht1 & ->).
  destruct (build_frame_make_rows _ _ _ _ _ Hdf2) as (theo2 & Ht2 & ->).
  pose proof Hsame as (Ht & Hd & Hf & Hn).
  rewrite <- Ht, <- Hd, <- Hf in Ht2. rewrite Ht1 in Ht2. injection Ht2 as <-.
  rewrite <- Ht.
  destruct (costs_rows (assign_signal threshold_bps) p1 p2 Hsame Hn0 Hsp Hst
              spot (ffill (reindex swap_pts (map fst spot))) theo1
              (shift (- tenor_days p1) (map (fun ds => Fin (snd ds)) spot)))
    as [Hpnl Hsig].
  { apply swap_column_fin_or_nan. }
  { apply shift_fin_or_nan. apply Forall_forall. intros c Hc.
    apply in_map_iff in Hc. destruct Hc as (x & <- & _).
    right. eexists. reflexivity. }
  cbn [num_trades total_pnl summarize]. split.
  - rewrite !count_trades_by_signal. rewrite Hsig. reflexivity.
  - destruct (fold_cadd_fin_le _ _ Hpnl 0 0 (Qle_refl 0))
      as (q2 & q1 & E2 & E1 & Hq).
    exists q1, q2. unfold csum. repeat split; assumption.
Qed.

Lemma total_pnl_antitone_in_costs_example :
  exists m2 q1 q2,
    run_backtest example_spot example_swap_pts 1
      {| tenor_days := 1; r_dom := 0; r_for := 0; notional := 1000000;
         spread_bps := 1; stop_loss_bps := 10 |} = Return m2
    /\ total_pnl example_metrics = Fin q1
    /\ total_pnl m2 = Fin q2
    /\ q2 <= q1.
Proof.
  assert (Hrun1 : run_backtest example_spot example_swap_pts 1 example_params
                  = Return example_metrics) by (vm_compute; reflexivity).
  destruct (run_backtest example_spot example_swap_pts 1
              {| tenor_days := 1; r_dom := 0; r_for := 0; notional := 1000000;
                 spread_bps := 1; stop_loss_bps := 10 |})
    as [m2|e] eqn:Hrun2; [|vm_compute in Hrun2; discriminate Hrun2].
  destruct (total_pnl_antitone_in_costs example_spot example_swap_pts 1
              example_params
              {| tenor_days := 1; r_dom := 0; r_for := 0; notional := 1000000;
                 spread_bps := 1; stop_loss_bps := 10 |}
              example_metrics m2)
    as (_ & q1 & q2 & E1 & E2 & Hq);
    try (vm_compute; discriminate); try assumption.
  - repeat split.
  - exists m2, q1, q2. repeat split; assumption.
Defined.

(** ** The fallback of the swap points: zero on every date *)

Lemma lookup_zero_series (d : Z) (index : list Z) :
  In d index -> lookup d (zero_series index) = Fin 0.
Proof.
  induction index as [|d' index IH]; intros Hin; [contradiction|].
  cbn [zero_series map lookup].
  destruct (d =? d')%Z eqn:Hd; [reflexivity|].
  destruct Hin as [->|Hin]; [rewrite Z.eqb_refl in Hd; discriminate|].
  apply IH. exact Hin.
Qed.

Lemma ffill_from_zeros (col : list cell) :
  Forall (fun c => c = Fin 0) col ->
  forall last, Forall (fun c => c = Fin 0) (ffill_from last col).
Proof.
  induction 1 as [|c col -> _ IH]; intros last; cbn [ffill_from is_nan].
  - constructor.
  - constructor; [reflexivity | apply IH].
Qed.

Lemma zero_swap_column (index : list Z) :
  Forall (fun c => c = Fin 0) (ffill (reindex (zero_series index) index)).
Proof.
  apply ffill_from_zeros. unfold reindex. apply Forall_forall.
  intros c Hc. apply in_map_iff in Hc. destruct Hc as (d & <- & Hd).
  apply lookup_zero_series. exact Hd.
Qed.

(** What a returned forward is, on rationals. *)
Lemma theoretical_forward_inv_Q (s rd rf th : Q) (t : Z) :
  theoretical_forward s rd rf t = Return th ->
  ~ 1 + rf * inject_Z t / 360 == 0
  /\ th = s * (1 + rd * inject_Z t / 360) / (1 + rf * inject_Z t / 360).
Proof.
  intros Hrun.
  rewrite (@theoretical_forward_last_division Q Q_PyFloat s rd rf t eq_refl) in Hrun.
  unfold truediv in Hrun.
  destruct (feqb (for_factor rf t) (of_int 0)) eqn:Hz; [discriminate|].
  injection Hrun as <-. split; [|reflexivity].
  apply Qeq_bool_false_iff. exact Hz.
Qed.

Lemma cltb_ceq_r (a b b' : cell) : ceq b b' -> cltb a b = cltb a b'.
Proof.
  destruct a, b, b'; simpl; auto; try contradiction.
  intros E. destruct (Qle_bool q0 q) eqn:H1, (Qle_bool q1 q) eqn:H2; auto.
  - apply Qle_bool_iff in H1. rewrite E in H1.
    apply Qle_bool_iff in H1. congruence.
  - apply Qle_bool_iff in H2. rewrite <- E in H2.
    apply Qle_bool_iff in H2. congruence.
Qed.

Lemma assign_signal_ceq (t : Q) (a b : cell) :
  ceq a b -> assign_signal t a = assign_signal t b.
Proof.
  intros E. unfold assign_signal, cgtb.
  rewrite (cltb_ceq a b _ E), (cltb_ceq_r _ a b E). reflexivity.
Qed.

(** The deviation of a row whose swap points are zero. *)
Lemma zero_swap_deviation (sig : cell -> Z) (p : params) (d : Z) (s th : Q) (e : cell) :
  ~ s == 0 ->
  ~ 1 + r_dom p * inject_Z (tenor_days p) / 360 == 0 ->
  theoretical_forward s (r_dom p) (r_for p) (tenor_days p) = Return th ->
  ceq (Df.dev_bps (make_row sig p d s (Fin 0) th e))
      (Fin (((1 + r_for p * inject_Z (tenor_days p) / 360)
             / (1 + r_dom p * inject_Z (tenor_days p) / 360) - 1) * 10000)).
Proof.
  intros Hs Hkd Hth.
  apply theoretical_forward_inv_Q in Hth. destruct Hth as [Hkf ->].
  set (kd := 1 + r_dom p * inject_Z (tenor_days p) / 360) in *.
  set (kf := 1 + r_for p * inject_Z (tenor_days p) / 360) in *.
  assert (Hth : ~ s * kd / kf == 0).
  { intros E. apply Hs.
    setoid_replace s with (s * kd / kf * (kf / kd)) by (field; split; assumption).
    rewrite E. ring. }
  cbn [Df.dev_bps make_row]. unfold of_int64. cbn [cmul cadd cdiv csub copp].
  change (Qeq_bool (inject_Z 360) 0) with false. cbn iota.
  unfold csub. cbn [cadd copp cdiv].
  apply Qeq_bool_false_iff in Hth. rewrite Hth. cbn [cmul ceq].
  apply Qeq_bool_false_iff in Hth.
  change (inject_Z 10000) with 10000. change (inject_Z 360) with 360.
  field. repeat split; assumption.
Qed.

Lemma fallback_row (sig : cell -> Z) (p : params) (spot : series)
    (df : list Df.row) (r : Df.row) :
  build_frame sig p spot (zero_series (map fst spot)) = Return df ->
  In r df ->
  (forall d s, In (d, s) spot -> ~ s == 0) ->
  ~ 1 + r_dom p * inject_Z (tenor_days p) / 360 == 0 ->
  exists d s th e,
    r = make_row sig p d s (Fin 0) th e
    /\ ceq (Df.dev_bps r)
           (Fin (((1 + r_for p * inject_Z (tenor_days p) / 360)
                  / (1 + r_dom p * inject_Z (tenor_days p) / 360) - 1) * 10000)).
Proof.
  intros Hdf Hin Hspot Hkd.
  destruct (build_frame_rows_strong _ _ _ _ _ _ Hdf Hin)
    as (d & s & sw & th & e & -> & Hds & Hth & _ & Hsw & _).
  pose proof (zero_swap_column (map fst spot)) as Hzero.
  rewrite Forall_forall in Hzero. rewrite (Hzero sw Hsw).
  exists d, s, th, e. split; [reflexivity|].
  exact (zero_swap_deviation sig p d s th e (Hspot d s Hds) Hkd Hth).
Qed.





(** ** optimize.py: the sweep over the grid *)

Lemma product3_length (ths sls sps : list Q) :
  List.length (product3 ths sls sps)
  = (List.length ths * List.length sls * List.length sps)%nat.
Proof.
  unfold product3.
  assert (Hin : forall th : Q,
             List.length (flat_map (fun sl : Q => map (fun sp : Q => (th, sl, sp)) sps) sls)
             = (List.length sls * List.length sps)%nat).
  { intros th. induction sls as [|sl sls IH]; cbn [flat_map]; [reflexivity|].
    rewrite length_app, length_map, IH. cbn [List.length]. lia. }
  induction ths as [|th ths IH]; cbn [flat_map]; [reflexivity|].
  rewrite length_app, Hin, IH. cbn [List.length]. lia.
Qed.

Lemma sweep_entry_returns (spot swap_pts : series) (c : Q * Q * Q) :
  exists m,
    run_backtest spot swap_pts (fst (fst c)) (default_params (snd c) (snd (fst c)))
    = Return m
    /\ sweep_entry spot swap_pts c = Return (c, m).
Proof.
  destruct c as [[th sl] sp]. cbn [fst snd].
  destruct (run_backtest_returns spot swap_pts th (default_params sp sl))
    as [[m Hm] _].
  { intros F. vm_compute in F. discriminate F. }
  exists m. split; [exact Hm|]. unfold sweep_entry. rewrite Hm. reflexivity.
Qed.

Lemma mapM_sweep (spot swap_pts : series) (grid : list (Q * Q * Q)) :
  exists rows,
    mapM (sweep_entry spot swap_pts) grid = Return rows
    /\ map fst rows = grid
    /\ Forall (fun row =>
                 run_backtest spot swap_pts (fst (fst (fst row)))
                   (default_params (snd (fst row)) (snd (fst (fst row))))
                 = Return (snd row)) rows.
Proof.
  induction grid as [|c grid (rows & Hrows & Hfst & Hall)].
  - exists []. repeat split. constructor.
  - destruct (sweep_entry_returns spot swap_pts c) as (m & Hm & Hc).
    exists ((c, m) :: rows). cbn [mapM]. rewrite Hc. cbn [bind]. rewrite Hrows.
    cbn [bind map fst]. repeat split.
    + f_equal. exact Hfst.
    + constructor; [exact Hm | exact Hall].
Qed.

(** X13. The sweep never fails: for any two series and any grid it returns
    one entry per combination of threshold, stop and spread, in the order
    of [itertools.product], and each entry carries what [run_backtest]
    returns for its combination with the 30-day tenor and the default
    rates and notional. *)
Theorem sweep_covers_grid (spot swap_pts : series) (ths sls sps : list Q) :
  exists rows,
    sweep spot swap_pts ths sls sps = Return rows
    /\ List.length rows
       = (List.length ths * List.length sls * List.length sps)%nat
    /\ map fst rows = product3 ths sls sps
    /\ Forall (fun row =>
                 run_backtest spot swap_pts (fst (fst (fst row)))
                   (default_params (snd (fst row)) (snd (fst (fst row))))
                 = Return (snd row)) rows.
Proof.
  destruct (mapM_sweep spot swap_pts (product3 ths sls sps))
    as (rows & Hrows & Hfst & Hall).
  exists rows. split; [exact Hrows|]. split; [|split; assumption].
  rewrite <- product3_length, <- Hfst, length_map. reflexivity.
Qed.

(** ** app.py: the histories of the session *)

Lemma history_append_short (hist : list Q) (x : Q) :
  (List.length hist < 50)%nat -> history_append hist x = hist ++ [x].
Proof.
  intros Hlen. unfold history_append.
  rewrite length_app. cbn [List.length].
  destruct (50 <? List.length hist + 1)%nat eqn:Hb; [|reflexivity].
  apply Nat.ltb_lt in Hb. lia.
Qed.

Lemma history_append_full (hist : list Q) (x : Q) :
  (50 <= List.length hist)%nat -> history_append hist x = tl (hist ++ [x]).
Proof.
  intros Hlen. unfold history_append.
  rewrite length_app. cbn [List.length].
  destruct (50 <? List.length hist + 1)%nat eqn:Hb; [reflexivity|].
  apply Nat.ltb_ge in Hb. lia.
Qed.

Lemma tl_skipn {A : Type} (k : nat) (l : list A) :
  tl (skipn k l) = skipn (S k) l.
Proof.
  revert l. induction k as [|k IH]; intros l.
  - destruct l; reflexivity.
  - destruct l as [|a l]; [reflexivity|]. cbn [skipn]. rewrite IH.
    destruct l; reflexivity.
Qed.

Lemma history_append_window (xs : list Q) (x : Q) :
  history_append (skipn (List.length xs - 50) xs) x
  = skipn (List.length (xs ++ [x]) - 50) (xs ++ [x]).
Proof.
  rewrite length_app. cbn [List.length].
  destruct (Nat.lt_ge_cases (List.length xs) 50) as [Hlt|Hge].
  - replace (List.length xs - 50)%nat with 0%nat by lia.
    replace (List.length xs + 1 - 50)%nat with 0%nat by lia.
    cbn [skipn]. apply history_append_short. exact Hlt.
  - rewrite history_append_full by (rewrite length_skipn; lia).
    replace (List.length xs + 1 - 50)%nat with (S (List.length xs - 50)) by lia.
    rewrite <- tl_skipn. f_equal.
    rewrite skipn_app.
    replace (List.length xs - 50 - List.length xs)%nat with 0%nat by lia.
    reflexivity.
Qed.

(** X14. A history is a window on the last 50 values: after the values
    [xs] were recorded one by one into an empty history, the history holds
    the last 50 of them, oldest first, and never more than 50. *)
Theorem history_keeps_last_50 (xs : list Q) :
  fold_left history_append xs [] = skipn (List.length xs - 50) xs
  /\ (List.length (fold_left history_append xs []) <= 50)%nat.
Proof.
  assert (Hwin : fold_left history_append xs [] = skipn (List.length xs - 50) xs).
  { induction xs as [|x xs IH] using rev_ind; [reflexivity|].
    rewrite fold_left_app. cbn [fold_left]. rewrite IH.
    apply history_append_window. }
  split; [exact Hwin|].
  rewrite Hwin, length_skipn. lia.
Qed.

Lemma history_get_in (h : session_history) (pair : string) :
  In pair (map fst h) -> exists hist, history_get h pair = Return hist.
Proof.
  induction h as [|[k old] h IH]; intros Hin; [contradiction|].
  cbn [history_get]. destruct (String.eqb pair k) eqn:Hk.
  - eexists. reflexivity.
  - destruct Hin as [E|Hin]; [|apply IH; exact Hin].
    cbn [fst] in E. subst k. rewrite String.eqb_refl in Hk. discriminate.
Qed.

Lemma history_get_missing (h : session_history) (pair : string) :
  ~ In pair (map fst h) -> history_get h pair = Raise KeyError.
Proof.
  induction h as [|[k old] h IH]; intros Hin; [reflexivity|].
  cbn [history_get]. destruct (String.eqb pair k) eqn:Hk.
  - apply String.eqb_eq in Hk. exfalso. apply Hin. left. symmetry. exact Hk.
  - apply IH. intros Hin'. apply Hin. right. exact Hin'.
Qed.

Lemma history_set_keys (h : session_history) (pair : string) (hist : list Q) :
  In pair (map fst h) -> map fst (history_set h pair hist) = map fst h.
Proof.
  induction h as [|[k old] h IH]; intros Hin; [contradiction|].
  cbn [history_set]. destruct (String.eqb pair k) eqn:Hk; [reflexivity|].
  cbn [map fst]. f_equal. apply IH.
  destruct Hin as [E|Hin]; [|exact Hin].
  cbn [fst] in E. subst k. rewrite String.eqb_refl in Hk. discriminate.
Qed.

Lemma history_get_set (h : session_history) (pair : string) (hist : list Q) :
  In pair (map fst h) ->
  history_get (history_set h pair hist) pair = Return hist.
Proof.
  induction h as [|[k old] h IH]; intros Hin; [contradiction|].
  cbn [history_set]. destruct (String.eqb pair k) eqn:Hk.
  - cbn [history_get]. rewrite Hk. reflexivity.
  - cbn [history_get]. rewrite Hk. apply IH.
    destruct Hin as [E|Hin]; [|exact Hin].
    cbn [fst] in E. subst k. rewrite String.eqb_refl in Hk. discriminate.
Qed.

Lemma history_get_set_other (h : session_history) (pair other : string)
    (hist : list Q) :
  other <> pair ->
  In pair (map fst h) ->
  history_get (history_set h pair hist) other = history_get h other.
Proof.
  intros Hne.
  induction h as [|[k old] h IH]; intros Hin; [contradiction|].
  cbn [history_set]. destruct (String.eqb pair k) eqn:Hk.
  - apply String.eqb_eq in Hk. subst k. cbn [history_get].
    destruct (String.eqb other pair) eqn:Ho; [|reflexivity].
    apply String.eqb_eq in Ho. contradiction.
  - cbn [history_get]. destruct (String.eqb other k); [reflexivity|].
    apply IH. destruct Hin as [E|Hin]; [|exact Hin].
    cbn [fst] in E. subst k. rewrite String.eqb_refl in Hk. discriminate.
Qed.

(** X15. The session's histories have the pairs of the first run as their
    keys, for good: recording a value for a pair that is a key appends it to
    that pair's window and leaves the keys and the other pairs' histories as
    they were, and recording one for any other pair raises [KeyError]. *)
Theorem record_history_keys (h : session_history) (pair : string) (x : Q) :
  (forall pairs, map fst (init_history pairs) = pairs)
  /\ (~ In pair (map fst h) -> record_history h pair x = Raise KeyError)
  /\ (In pair (map fst h) ->
      exists hist h',
        history_get h pair = Return hist
        /\ record_history h pair x = Return h'
        /\ map fst h' = map fst h
        /\ history_get h' pair = Return (history_append hist x)
        /\ forall other, other <> pair ->
                         history_get h' other = history_get h other).
Proof.
  split; [|split].
  - intros pairs. unfold init_history. rewrite map_map. cbn [fst]. apply map_id.
  - intros Hin. unfold record_history.
    rewrite (history_get_missing h pair Hin). reflexivity.
  - intros Hin. destruct (history_get_in h pair Hin) as [hist Hget].
    exists hist, (history_set h pair (history_append hist x)).
    split; [exact Hget|].
    split; [unfold record_history; rewrite Hget; reflexivity|].
    split; [apply history_set_keys; exact Hin|].
    split; [apply history_get_set; exact Hin|].
    intros other Hne. apply history_get_set_other; assumption.
Qed.

(** A session started with two pairs: a third pair has no history. *)
Lemma record_history_keys_example :
  record_history (init_history ["EUR_USD"; "GBP_USD"]%string) "USD_JPY"%string 1
  = Raise KeyError.
Proof.
  apply (record_history_keys (init_history ["EUR_USD"; "GBP_USD"]%string)
           "USD_JPY"%string 1).
  intros [E|[E|[]]]; discriminate E.
Defined.

(** ** risk.py and the path simulator *)


Lemma simulate_path_walk (days : nat) :
  forall (path obs_fwd : Q) (g : rng),
    fst (simulate_path days path obs_fwd g)
    = pnl_path (fst (random_walk days path g)) obs_fwd 1000000
    /\ forall n, snd (random_walk days path g) n
                 = snd (simulate_path days path obs_fwd g) n.
Proof.
  induction days as [|days IH]; intros path obs_fwd g.
  - split; reflexivity.
  - cbn [simulate_path random_walk]. unfold uniform, random.
    match goal with
    | |- context [simulate_path days ?p ?o ?g1] =>
        specialize (IH p o g1);
        destruct (simulate_path days p o g1) as [daily g2];
        destruct (random_walk days p g1) as [rest g3]
    end.
    cbn [fst snd] in *. destruct IH as [IH1 IH2].
    split; [|exact IH2]. rewrite IH1. reflexivity.
Qed.

Lemma simulate_runs_rows (sims days : nat) (spot0 obs_fwd : Q) :
  forall g : rng,
    List.length (fst (simulate_runs sims days spot0 obs_fwd g)) = sims
    /\ Forall (fun row =>
                 exists g', row = fst (simulate_path days spot0 obs_fwd g')
                            /\ forall n, exists k, g' n = g k)
              (fst (simulate_runs sims days spot0 obs_fwd g))
    /\ forall n, snd (simulate_runs sims days spot0 obs_fwd g) n
                 = g (sims * days + n)%nat.
Proof.
  induction sims as [|sims IH]; intros g.
  - repeat split. constructor.
  - cbn [simulate_runs].
    pose proof (simulate_path_draws days spot0 obs_fwd g) as Hk.
    destruct (simulate_path days spot0 obs_fwd g) as [daily g1] eqn:Hpath.
    cbn [snd] in Hk.
    destruct (IH g1) as (Hlen & Hrows & Hdraws).
    destruct (simulate_runs sims days spot0 obs_fwd g1) as [pnls g2].
    cbn [fst snd] in *. split; [cbn [List.length]; rewrite Hlen; reflexivity|]. split.
    + constructor.
      * exists g. split; [rewrite Hpath; reflexivity|].
        intros n. exists n. reflexivity.
      * eapply Forall_impl; [|exact Hrows].
        intros row (g' & Hrow & Hsub). exists g'. split; [exact Hrow|].
        intros n. destruct (Hsub n) as [k Hk']. rewrite Hk', Hk.
        eexists. reflexivity.
    + intros n. rewrite Hdraws, Hk. f_equal. lia.
Qed.

Lemma simulate_path_length (days : nat) :
  forall (path obs_fwd : Q) (g : rng),
    List.length (fst (simulate_path days path obs_fwd g)) = days.
Proof.
  induction days as [|days IH]; intros path obs_fwd g; [reflexivity|].
  cbn [simulate_path]. unfold uniform, random.
  match goal with
  | |- context [simulate_path days ?p ?o ?g1] =>
      specialize (IH p o g1); destruct (simulate_path days p o g1) as [daily g2]
  end.
  cbn [fst] in *. cbn [List.length]. rewrite IH. reflexivity.
Qed.


Lemma Qpower_succ_nat (q : Q) (n : nat) :
  ~ q == 0 -> q ^ Z.of_nat (S n) == q * q ^ Z.of_nat n.
Proof.
  intros Hq. rewrite Nat2Z.inj_succ. unfold Z.succ.
  rewrite Qpower_plus by exact Hq. simpl. apply Qmult_comm.
Qed.

Lemma simulate_path_bounds (obs_fwd : Q) (days : nat) :
  forall (path : Q) (g : rng),
    0 <= path ->
    (forall n, 0 <= g n <= 1) ->
    forall (t : nat) (e : Q),
      nth_error (fst (simulate_path days path obs_fwd g)) t = Some e ->
      1000000 * (path * (995 # 1000) ^ Z.of_nat (S t) - obs_fwd) <= e
      /\ e <= 1000000 * (path * (1005 # 1000) ^ Z.of_nat (S t) - obs_fwd).
Proof.
  induction days as [|days IH]; intros path g Hpath Hg t e Hnth.
  - destruct t; discriminate Hnth.
  - cbn [simulate_path] in Hnth. unfold uniform, random in Hnth.
    pose proof (Hg 0%nat) as Hu.
    set (u := g 0%nat) in *.
    set (path' := path * (1 + (- (5 # 1000) + ((5 # 1000) - - (5 # 1000)) * u))) in *.
    assert (Hlo : path * (995 # 1000) <= path') by (unfold path'; nra).
    assert (Hhi : path' <= path * (1005 # 1000)) by (unfold path'; nra).
    assert (Hpath' : 0 <= path') by nra.
    specialize (IH path' (fun n => g (S n)) Hpath' (fun n => Hg (S n))).
    destruct (simulate_path days path' obs_fwd (fun n => g (S n))) as [daily g2].
    cbn [fst] in *. destruct t as [|t].
    + cbn [nth_error] in Hnth. injection Hnth as <-.
      change ((995 # 1000) ^ Z.of_nat 1) with (995 # 1000).
      change ((1005 # 1000) ^ Z.of_nat 1) with (1005 # 1000).
      split; lra.
    + cbn [nth_error] in Hnth. destruct (IH t e Hnth) as [IHlo IHhi].
      rewrite (Qpower_succ_nat (995 # 1000) (S t)) by discriminate.
      rewrite (Qpower_succ_nat (1005 # 1000) (S t)) by discriminate.
      assert (Hp1 : 0 <= (995 # 1000) ^ Z.of_nat (S t))
        by (apply Qpower_0_le; discriminate).
      assert (Hp2 : 0 <= (1005 # 1000) ^ Z.of_nat (S t))
        by (apply Qpower_0_le; discriminate).
      set (P1 := (995 # 1000) ^ Z.of_nat (S t)) in *.
      set (P2 := (1005 # 1000) ^ Z.of_nat (S t)) in *.
      split; nra.
Qed.

Lemma example_rng_range (n : nat) : 0 <= example_rng n <= 1.
Proof.
  unfold example_rng.
  assert (Hm : (0 <= Z.of_nat (n mod 10) < 10)%Z).
  { pose proof (Nat.mod_upper_bound n 10). lia. }
  set (k := Z.of_nat (n mod 10)) in *.
  split.
  - apply Qle_shift_div_l; [reflexivity|]. rewrite Qmult_0_l.
    change 0 with (inject_Z 0). rewrite <- Zle_Qle. lia.
  - apply Qle_shift_div_r; [reflexivity|].
    change (1 * 10) with (inject_Z 10). rewrite <- Zle_Qle. lia.
Qed.



(** ** The drawdown *)

Lemma fill_nan_fin (v : cell) (col : list cell) :
  Forall is_fin col -> map (fill_nan v) col = col.
Proof.
  induction 1 as [|c col [q ->] _ IH]; cbn [map]; [reflexivity|].
  rewrite IH. reflexivity.
Qed.

Lemma accumulate_from_length (op : cell -> cell -> cell) (col : list cell) :
  forall acc, List.length (accumulate_from op acc col) = List.length col.
Proof.
  induction col as [|c col IH]; intros acc; cbn [accumulate_from List.length];
    [reflexivity|]. rewrite IH. reflexivity.
Qed.

Lemma restore_nan_fin (col : list cell) :
  Forall is_fin col ->
  forall acc, List.length acc = List.length col -> restore_nan col acc = acc.
Proof.
  induction 1 as [|c col [q ->] _ IH]; intros acc Hlen.
  - destruct acc; [reflexivity | discriminate].
  - destruct acc as [|a acc]; [discriminate|].
    cbn [restore_nan is_nan]. rewrite IH; [reflexivity|].
    cbn [List.length] in Hlen. lia.
Qed.

Lemma accumulate_length (op : cell -> cell -> cell) (col : list cell) :
  List.length (accumulate op col) = List.length col.
Proof.
  destruct col; cbn [accumulate List.length]; [reflexivity|].
  rewrite accumulate_from_length. reflexivity.
Qed.

Lemma cumsum_fin (col : list cell) :
  Forall is_fin col -> cumsum col = accumulate cadd col.
Proof.
  intros Hfin. unfold cumsum. rewrite (fill_nan_fin _ col Hfin).
  apply restore_nan_fin; [exact Hfin | apply accumulate_length].
Qed.

Lemma cummax_fin (col : list cell) :
  Forall is_fin col -> cummax col = accumulate np_maximum col.
Proof.
  intros Hfin. unfold cummax. rewrite (fill_nan_fin _ col Hfin).
  apply restore_nan_fin; [exact Hfin | apply accumulate_length].
Qed.

Lemma accumulate_from_cadd_fin (col : list cell) :
  Forall is_fin col ->
  forall a, Forall is_fin (accumulate_from cadd (Fin a) col).
Proof.
  induction 1 as [|c col [q ->] _ IH]; intros a; cbn [accumulate_from cadd].
  - constructor.
  - constructor; [eexists; reflexivity | apply IH].
Qed.

Lemma np_maximum_fin (a b : Q) :
  np_maximum (Fin a) (Fin b) = Fin (if negb (Qle_bool b a) then b else a).
Proof.
  unfold np_maximum. cbn [is_nan orb cltb].
  destruct (negb (Qle_bool b a)); reflexivity.
Qed.

(** The running maximum is at or above the curve. *)
Lemma running_max_above (es : list cell) :
  Forall is_fin es ->
  forall m, Forall fin_nonneg (col_sub (accumulate_from np_maximum (Fin m) es) es).
Proof.
  induction 1 as [|c es [e ->] _ IH]; intros m; cbn [accumulate_from col_sub].
  - constructor.
  - rewrite np_maximum_fin. constructor; [|apply IH].
    unfold csub. cbn [copp cadd]. eexists. split; [reflexivity|].
    destruct (negb (Qle_bool e m)) eqn:Hb.
    + lra.
    + apply Qltb_false_iff in Hb. lra.
Qed.

(** On a curve that never falls the running maximum is the curve. *)
Lemma running_max_of_gains (gains : list cell) :
  Forall fin_nonneg gains ->
  forall a m, m <= a ->
    Forall fin_zero
      (col_sub (accumulate_from np_maximum (Fin m)
                  (accumulate_from cadd (Fin a) gains))
               (accumulate_from cadd (Fin a) gains)).
Proof.
  induction 1 as [|c gains (x & -> & Hx) _ IH]; intros a m Hm;
    cbn [accumulate_from cadd col_sub].
  - constructor.
  - rewrite np_maximum_fin.
    destruct (negb (Qle_bool (a + x) m)) eqn:Hb.
    + constructor; [|apply IH; lra].
      unfold csub. cbn [copp cadd]. eexists. split; [reflexivity | ring].
    + apply Qltb_false_iff in Hb.
      constructor; [|apply IH; lra].
      unfold csub. cbn [copp cadd]. eexists. split; [reflexivity | lra].
Qed.

Lemma fold_np_maximum_nonneg (col : list cell) :
  Forall fin_nonneg col ->
  forall c, fin_nonneg c -> fin_nonneg (fold_left np_maximum col c).
Proof.
  induction 1 as [|x col (q & -> & Hq) _ IH]; intros c (a & -> & Ha);
    cbn [fold_left].
  - exists a. split; [reflexivity | exact Ha].
  - apply IH. rewrite np_maximum_fin. eexists. split; [reflexivity|].
    destruct (negb (Qle_bool q a)); assumption.
Qed.

Lemma fold_np_maximum_zero (col : list cell) :
  Forall fin_zero col ->
  forall c, fin_zero c -> fin_zero (fold_left np_maximum col c).
Proof.
  induction 1 as [|x col (q & -> & Hq) _ IH]; intros c (a & -> & Ha);
    cbn [fold_left].
  - exists a. split; [reflexivity | exact Ha].
  - apply IH. rewrite np_maximum_fin. eexists. split; [reflexivity|].
    destruct (negb (Qle_bool q a)); assumption.
Qed.

Lemma filter_fin (P : cell -> Prop) (col : list cell) :
  (forall c, P c -> is_fin c) ->
  Forall P col -> filter (fun c => negb (is_nan c)) col = col.
Proof.
  intros HP. induction 1 as [|c col Hc _ IH]; cbn [filter]; [reflexivity|].
  destruct (HP c Hc) as [q ->]. cbn [is_nan negb]. rewrite IH. reflexivity.
Qed.

Lemma col_max_nonneg (col : list cell) :
  col <> [] -> Forall fin_nonneg col -> fin_nonneg (col_max col).
Proof.
  intros Hne Hall. unfold col_max.
  rewrite (filter_fin fin_nonneg col); [|intros c (q & -> & _); eexists; reflexivity|exact Hall].
  destruct col as [|c col]; [contradiction|].
  inversion Hall; subst. apply fold_np_maximum_nonneg; assumption.
Qed.

Lemma col_max_zero (col : list cell) :
  col <> [] -> Forall fin_zero col -> fin_zero (col_max col).
Proof.
  intros Hne Hall. unfold col_max.
  rewrite (filter_fin fin_zero col); [|intros c (q & -> & _); eexists; reflexivity|exact Hall].
  destruct col as [|c col]; [contradiction|].
  inversion Hall; subst. apply fold_np_maximum_zero; assumption.
Qed.

(** The drawdown of a column of finite PnLs. *)
Lemma drawdown_of_fin (pnls : list cell) :
  Forall is_fin pnls ->
  let equity := cumsum pnls in
  let dd := match equity with
            | [] => of_int64 0
            | _ => col_max (col_sub (cummax equity) equity)
            end in
  fin_nonneg dd /\ (Forall fin_nonneg pnls -> fin_zero dd).
Proof.
  intros Hfin. cbn zeta. rewrite (cumsum_fin pnls Hfin).
  destruct Hfin as [|c pnls [x ->] Hfin].
  - cbn [accumulate]. split.
    + exists 0. split; [reflexivity | lra].
    + intros _. exists 0. split; reflexivity.
  - cbn [accumulate].
    assert (Heq : Forall is_fin (Fin x :: accumulate_from cadd (Fin x) pnls)).
    { constructor; [eexists; reflexivity | apply accumulate_from_cadd_fin; exact Hfin]. }
    rewrite (cummax_fin _ Heq). cbn [accumulate col_sub].
    split.
    + apply col_max_nonneg; [discriminate|].
      constructor.
      * unfold csub. cbn [copp cadd]. eexists. split; [reflexivity | lra].
      * apply running_max_above. apply accumulate_from_cadd_fin. exact Hfin.
    + intros Hgain. inversion Hgain as [|? ? _ Hgains]; subst.
      apply col_max_zero; [discriminate|].
      constructor.
      * unfold csub. cbn [copp cadd]. eexists. split; [reflexivity | ring].
      * apply running_max_of_gains; [exact Hgains | lra].
Qed.

Lemma trades_pnl_fin (p : params) (df : list Df.row) :
  driver_frame p df -> Forall is_fin (map Df.pnl (dropna_pnl df)).
Proof.
  intros Hdrv. apply Forall_forall. intros c Hc.
  apply in_map_iff in Hc. destruct Hc as (r & <- & Hin).
  unfold dropna_pnl in Hin. apply filter_In in Hin. destruct Hin as [Hin Hn].
  assert (Hfn : fin_or_nan (Df.pnl r)).
  { destruct Hdrv as [(spot & swap & t & Hdf)|(spot & swap & Hdf)];
      destruct (build_frame_rows_strong _ _ _ _ _ _ Hdf Hin)
        as (d & s & sw & th & e & -> & _ & _ & Hsw & _ & He);
      cbn [Df.pnl make_row];
      apply estimate_pnl_fin_or_nan;
        [apply obs_fwd_fin_or_nan; exact Hsw | exact He
        |apply obs_fwd_fin_or_nan; exact Hsw | exact He]. }
  destruct Hfn as [E|[q E]].
  - rewrite E in Hn. discriminate Hn.
  - exists q. exact E.
Qed.

(** X19. The maximum drawdown the drivers report is a finite number that is
    never negative, and it is zero when no complete row has a negative PnL
    (the equity curve then never falls). *)
Theorem max_drawdown_nonneg (p : params) (df : list Df.row) :
  driver_frame p df ->
  exists q,
    max_drawdown_of (dropna_pnl df) = Fin q
    /\ 0 <= q
    /\ (Forall (fun r => cle (Fin 0) (Df.pnl r)) (dropna_pnl df) -> q == 0).
Proof.
  intros Hdrv.
  pose proof (trades_pnl_fin p df Hdrv) as Hfin.
  destruct (drawdown_of_fin (map Df.pnl (dropna_pnl df)) Hfin) as [Hdd Hzero].
  unfold max_drawdown_of, equity_of.
  destruct Hdd as (q & Hq & Hq0). exists q.
  split; [exact Hq|]. split; [exact Hq0|].
  intros Hgain.
  destruct Hzero as (q' & Hq' & Hz).
  - apply Forall_forall. intros c Hc.
    rewrite Forall_forall in Hfin. destruct (Hfin c Hc) as [x ->].
    apply in_map_iff in Hc. destruct Hc as (r & Hr & Hin).
    rewrite Forall_forall in Hgain. specialize (Hgain r Hin).
    rewrite Hr in Hgain. exists x. split; [reflexivity | exact Hgain].
  - rewrite Hq in Hq'. injection Hq' as <-. exact Hz.
Qed.

Lemma max_drawdown_nonneg_example :
  exists q, max_drawdown_of (dropna_pnl example_frame) = Fin q /\ q == 0.
Proof.
  assert (Hdf : driver_frame example_params example_frame).
  { left. exists example_spot, example_swap_pts, 1. vm_compute. reflexivity. }
  destruct (max_drawdown_nonneg example_params example_frame Hdf)
    as (q & Hq & _ & Hz).
  exists q. split; [exact Hq|]. apply Hz.
  vm_compute. repeat constructor; discriminate.
Defined.

(** ** The series of the fetchers *)

Lemma lookup_dict_set (d d' : Z) (v : Q) (s : series) :
  lookup d (dict_set d' v s) = if (d =? d')%Z then Fin v else lookup d s.
Proof.
  induction s as [|[d2 v2] s IH]; cbn [dict_set lookup]; [reflexivity|].
  destruct (d' =? d2)%Z eqn:E; cbn [lookup].
  - apply Z.eqb_eq in E. subst d2. destruct (d =? d')%Z; reflexivity.
  - rewrite IH. destruct (d =? d2)%Z eqn:E2; [|reflexivity].
    apply Z.eqb_eq in E2. subst d2. rewrite Z.eqb_sym, E. reflexivity.
Qed.

Lemma keys_dict_set (x d : Z) (v : Q) (s : series) :
  In x (map fst (dict_set d v s)) <-> x = d \/ In x (map fst s).
Proof.
  induction s as [|[d2 v2] s IH]; cbn [dict_set map fst In].
  - intuition.
  - destruct (d =? d2)%Z eqn:E; cbn [map fst In].
    + apply Z.eqb_eq in E. subst d2. intuition.
    + rewrite IH. intuition.
Qed.

Lemma NoDup_dict_set (d : Z) (v : Q) (s : series) :
  NoDup (map fst s) -> NoDup (map fst (dict_set d v s)).
Proof.
  induction s as [|[d2 v2] s IH]; cbn [dict_set map fst]; intros Hnd.
  - constructor; [intros [] | constructor].
  - inversion Hnd as [|? ? Hnotin Hnd']; subst.
    destruct (d =? d2)%Z eqn:E; cbn [map fst].
    + apply Z.eqb_eq in E. subst d2. constructor; assumption.
    + apply Z.eqb_neq in E. constructor; [|apply IH; exact Hnd'].
      rewrite keys_dict_set. intros [->|Hin]; [apply E; reflexivity | contradiction].
Qed.

Lemma find_app {A : Type} (f : A -> bool) (l1 l2 : list A) :
  find f (l1 ++ l2) = match find f l1 with Some x => Some x | None => find f l2 end.
Proof.
  induction l1 as [|a l1 IH]; cbn [app find]; [reflexivity|].
  destruct (f a); [reflexivity | exact IH].
Qed.

Lemma find_map {A B : Type} (g : A -> B) (f : B -> bool) (l : list A) :
  find f (map g l) = option_map g (find (fun a => f (g a)) l).
Proof.
  induction l as [|a l IH]; cbn [map find]; [reflexivity|].
  destruct (f (g a)); [reflexivity | exact IH].
Qed.

Lemma dict_of_from (records : list (Z * Q)) :
  forall acc d,
    NoDup (map fst acc) ->
    NoDup (map fst (fold_left (fun acc r => dict_set (fst r) (snd r) acc) records acc))
    /\ lookup d (fold_left (fun acc r => dict_set (fst r) (snd r) acc) records acc)
       = match find (fun r => (fst r =? d)%Z) (rev records) with
         | Some r => Fin (snd r)
         | None => lookup d acc
         end.
Proof.
  induction records as [|x records IH]; intros acc d Hnd; cbn [fold_left rev find].
  - split; [exact Hnd | reflexivity].
  - destruct (IH (dict_set (fst x) (snd x) acc) d (NoDup_dict_set _ _ _ Hnd))
      as [Hnd' Hl].
    split; [exact Hnd'|].
    rewrite Hl, find_app. cbn [find].
    destruct (find (fun r => (fst r =? d)%Z) (rev records)); [reflexivity|].
    rewrite lookup_dict_set, Z.eqb_sym.
    destruct (fst x =? d)%Z; reflexivity.
Qed.

Lemma lookup_insert_sorted (d d' : Z) (v : Q) (s : series) :
  lookup d (insert_sorted d' v s) = if (d =? d')%Z then Fin v else lookup d s.
Proof.
  induction s as [|[d2 v2] s IH]; cbn [insert_sorted lookup]; [reflexivity|].
  destruct (d' <=? d2)%Z eqn:E; cbn [lookup]; [reflexivity|].
  rewrite IH. destruct (d =? d2)%Z eqn:E2; [|reflexivity].
  destruct (d =? d')%Z eqn:E3; [|reflexivity].
  apply Z.eqb_eq in E2, E3. apply Z.leb_gt in E. lia.
Qed.

Lemma keys_insert_sorted (x d : Z) (v : Q) (s : series) :
  In x (map fst (insert_sorted d v s)) <-> x = d \/ In x (map fst s).
Proof.
  induction s as [|[d2 v2] s IH]; cbn [insert_sorted map fst In].
  - intuition.
  - destruct (d <=? d2)%Z; cbn [map fst In].
    + intuition.
    + rewrite IH. intuition.
Qed.

Lemma sorted_insert_sorted (d : Z) (v : Q) (s : series) :
  StronglySorted Z.lt (map fst s) ->
  ~ In d (map fst s) ->
  StronglySorted Z.lt (map fst (insert_sorted d v s)).
Proof.
  induction s as [|[d2 v2] s IH]; cbn [insert_sorted map fst]; intros Hs Hnotin.
  - constructor; constructor.
  - apply StronglySorted_inv in Hs. destruct Hs as [Hs Hall].
    destruct (d <=? d2)%Z eqn:E; cbn [map fst].
    + apply Z.leb_le in E.
      assert (Hlt : (d < d2)%Z).
      { destruct (Z.eq_dec d d2) as [->|]; [exfalso; apply Hnotin; left; reflexivity | lia]. }
      constructor.
      * constructor; assumption.
      * constructor; [exact Hlt|].
        rewrite Forall_forall in Hall |- *. intros x Hx.
        specialize (Hall x Hx). lia.
    + apply Z.leb_gt in E. constructor.
      * apply IH; [exact Hs|]. intros Hin. apply Hnotin. right. exact Hin.
      * rewrite Forall_forall in Hall |- *. intros x Hx.
        apply keys_insert_sorted in Hx. destruct Hx as [->|Hx]; [lia|].
        apply Hall. exact Hx.
Qed.

Lemma lookup_sort_index (d : Z) (s : series) :
  lookup d (sort_index s) = lookup d s.
Proof.
  induction s as [|[d2 v2] s IH]; [reflexivity|].
  cbn [sort_index fold_right fst snd]. rewrite lookup_insert_sorted.
  cbn [lookup]. fold (sort_index s). rewrite IH. reflexivity.
Qed.

Lemma keys_sort_index (x : Z) (s : series) :
  In x (map fst (sort_index s)) <-> In x (map fst s).
Proof.
  induction s as [|[d2 v2] s IH]; [reflexivity|].
  cbn [sort_index fold_right fst snd]. rewrite keys_insert_sorted.
  fold (sort_index s). rewrite IH. cbn [map fst In]. intuition.
Qed.

Lemma sorted_sort_index (s : series) :
  NoDup (map fst s) -> StronglySorted Z.lt (map fst (sort_index s)).
Proof.
  induction s as [|[d2 v2] s IH]; intros Hnd; [constructor|].
  cbn [map fst] in Hnd. inversion Hnd as [|? ? Hnotin Hnd']; subst.
  cbn [sort_index fold_right fst snd]. fold (sort_index s).
  apply sorted_insert_sorted; [apply IH; exact Hnd'|].
  rewrite keys_sort_index. exact Hnotin.
Qed.

Lemma series_of_records_spec (records : list (Z * Q)) :
  StronglySorted Z.lt (map fst (series_of_records records))
  /\ forall d,
       lookup d (series_of_records records)
       = match find (fun r => (fst r =? d)%Z) (rev records) with
         | Some r => Fin (snd r)
         | None => NaN
         end.
Proof.
  unfold series_of_records, dict_of. split.
  - apply sorted_sort_index.
    apply (dict_of_from records [] 0%Z). constructor.
  - intros d. rewrite lookup_sort_index.
    apply (dict_of_from records [] d). constructor.
Qed.

Lemma fetch_spot_history_series_sorted (candles : list candle) :
  StronglySorted Z.lt (map fst (fetch_spot_history candles)).
Proof.
  unfold fetch_spot_history.
  apply (series_of_records_spec (map spot_record candles)).
Qed.

(** X20. Whatever candles the response holds, in whatever order and with
    whatever repeated dates, the spot history has strictly increasing dates,
    and its value at a date is the mean of the open and the close of the
    last candle of that date; a date without a candle is not in it. *)
Theorem fetch_spot_history_series (candles : list candle) :
  StronglySorted Z.lt (map fst (fetch_spot_history candles))
  /\ forall d,
       lookup d (fetch_spot_history candles)
       = match find (fun c => (candle_date c =? d)%Z) (rev candles) with
         | Some c => Fin ((mid_o c + mid_c c) / 2)
         | None => NaN
         end.
Proof.
  unfold fetch_spot_history.
  destruct (series_of_records_spec (map spot_record candles)) as [Hs Hl].
  split; [exact Hs|]. intros d.
  rewrite Hl, <- map_rev, find_map. cbn [spot_record fst].
  destruct (find (fun c => (candle_date c =? d)%Z) (rev candles)); reflexivity.
Qed.

Lemma zero_series_keys (index : list Z) : map fst (zero_series index) = index.
Proof.
  unfold zero_series. rewrite map_map. cbn [fst]. apply map_id.
Qed.

(** X21. The swap history has strictly increasing dates whether the request
    succeeded or not.  When it succeeded, the value at a date is long rate
    minus short rate of the last entry of that date, an absent rate counting
    as 0.  When it failed, the series has exactly the dates of the spot
    history and is 0 on each of them. *)
Theorem fetch_swap_history_series (candles : list candle) :
  (forall response,
     StronglySorted Z.lt (map fst (fetch_swap_history response candles)))
  /\ (forall data d,
        lookup d (fetch_swap_history (Some data) candles)
        = match find (fun r => (swap_date r =? d)%Z) (rev data) with
          | Some r => Fin (get_default (longRate r) 0 - get_default (shortRate r) 0)
          | None => NaN
          end)
  /\ map fst (fetch_swap_history None candles)
     = map fst (fetch_spot_history candles)
  /\ reindex (fetch_swap_history None candles)
       (map fst (fetch_spot_history candles))
     = map (fun _ => Fin 0) (fetch_spot_history candles).
Proof.
  split; [|split; [|split]].
  - intros [data|]; cbn [fetch_swap_history].
    + apply (series_of_records_spec (map swap_record data)).
    + rewrite zero_series_keys. apply fetch_spot_history_series_sorted.
  - intros data d. cbn [fetch_swap_history].
    destruct (series_of_records_spec (map swap_record data)) as [_ Hl].
    rewrite Hl, <- map_rev, find_map. cbn [swap_record fst].
    destruct (find (fun r => (swap_date r =? d)%Z) (rev data)); reflexivity.
  - cbn [fetch_swap_history]. apply zero_series_keys.
  - cbn [fetch_swap_history]. unfold reindex. rewrite map_map.
    apply map_ext_in. intros a Ha.
    apply lookup_zero_series. apply in_map. exact Ha.
Qed.

(** ** The dashboard's PnL and its signal *)

Lemma dashboard_theo_fwd_pos (spot_mid : Q) (tenor : Z) :
  (0 <= tenor)%Z ->
  0 < spot_mid ->
  exists theo,
    theoretical_forward spot_mid (25 # 1000) (5 # 1000) tenor = Return theo
    /\ 0 < theo.
Proof.
  intros Ht Hs.
  destruct (dashboard_theo_fwd spot_mid tenor Ht) as (theo & Htheo & _).
  exists theo. split; [exact Htheo|].
  assert (Hq : 0 <= inject_Z tenor).
  { change 0 with (inject_Z 0). rewrite <- Zle_Qle. exact Ht. }
  assert (Hkf : 0 < 360 + (5 # 1000) * inject_Z tenor) by nra.
  assert (Hkd : 0 < 360 + (25 # 1000) * inject_Z tenor) by nra.
  assert (Hden : ~ 1 + (5 # 1000) * inject_Z tenor / 360 == 0).
  { intros E. assert (E' : 360 + (5 # 1000) * inject_Z tenor == 0).
    { setoid_replace (360 + (5 # 1000) * inject_Z tenor)
        with (360 * (1 + (5 # 1000) * inject_Z tenor / 360)) by field.
      rewrite E. reflexivity. }
    lra. }
  rewrite (theoretical_forward_formula_Q _ _ _ _ Hden) in Htheo.
  injection Htheo as <-.
  set (kf := 360 + (5 # 1000) * inject_Z tenor) in *.
  set (kd := 360 + (25 # 1000) * inject_Z tenor) in *.
  assert (Heq : spot_mid * (1 + (25 # 1000) * inject_Z tenor / 360)
                / (1 + (5 # 1000) * inject_Z tenor / 360)
                == spot_mid * (kd * / kf)).
  { unfold kd, kf. field. fold kf. lra. }
  rewrite Heq.
  apply Qmult_pos_pos; [exact Hs|].
  apply Qmult_pos_pos; [exact Hkd | apply Qinv_pos; exact Hkf].
Qed.

Lemma dashboard_pnl_of_discount (obs theo sp st : Q) :
  0 <= sp -> 0 <= st -> obs < theo ->
  dashboard_pnl obs theo sp st <= 0
  /\ (0 < st -> dashboard_pnl obs theo sp st < 0).
Proof.
  intros Hsp Hst Hlt. unfold dashboard_pnl. cbn [fltb Q_PyFloat].
  assert (Hcost : sp / 10000 * 1000000 == sp * 100) by field.
  assert (Hstop : st / 10000 * 1000000 == st * 100) by field.
  destruct (negb (Qle_bool (- (st / 10000 * 1000000))
                    ((obs - theo) * 1000000 - sp / 10000 * 1000000))) eqn:Hb.
  - rewrite Hstop. split; [lra | intros; lra].
  - rewrite Hcost. split; [lra | intros; lra].
Qed.

(** X22. The dashboard's PnL is not signed by the direction of the trade:
    for a positive spot, whenever a row's signal is "Cheap -> Buy forward"
    its PnL is at most 0, and negative when the stop-loss setting is
    positive (threshold, spread and stop loss not negative, as the sidebar
    has them). *)
Theorem dashboard_cheap_signal_shows_loss
    (st : settings) (spot_mid swap_pts : Q) (row : dashboard_row) :
  (0 <= dash_tenor_days st)%Z ->
  0 < spot_mid ->
  0 <= dash_threshold_bps st ->
  0 <= dash_spread_bps st ->
  0 <= dash_stop_loss_bps st ->
  dashboard_pair st spot_mid swap_pts = Return row ->
  row_sig row = Cheap_Buy_forward ->
  row_pnl row <= 0 /\ (0 < dash_stop_loss_bps st -> row_pnl row < 0).
Proof.
  intros Ht Hs Hth Hsp Hst Hrow Hsig.
  destruct (dashboard_theo_fwd_pos spot_mid (dash_tenor_days st) Ht Hs)
    as (theo & Htheo & Hpos).
  unfold dashboard_pair in Hrow. rewrite Htheo in Hrow. cbn [bind] in Hrow.
  rewrite deviation_bps_nonzero in Hrow
    by (apply Qeq_bool_false_iff; intros E; change (of_int 0) with 0 in E; lra).
  cbn [bind] in Hrow. injection Hrow as <-.
  cbn [row_sig row_pnl] in *.
  apply (classify_cases _ _ Hth) in Hsig.
  apply dashboard_pnl_of_discount; [exact Hsp | exact Hst |].
  match type of Hsig with ((?o - theo) / theo * _ < _) => set (obs := o) in * end.
  assert (Hdev : obs - theo == ((obs - theo) / theo * inject_Z 10000) * theo / 10000).
  { field. lra. }
  set (dev := (obs - theo) / theo * inject_Z 10000) in *.
  assert (Hneg : dev < 0) by lra.
  assert (Hprod : dev * theo / 10000 < 0).
  { setoid_replace (dev * theo / 10000) with (dev * theo * (1 # 10000)) by field.
    nra. }
  lra.
Qed.

Lemma dashboard_cheap_signal_shows_loss_example :
  exists row,
    dashboard_pair {| override_provider := Manual; manual_bps := - 2;
                      dash_threshold_bps := 1; dash_stop_loss_bps := 2;
                      dash_spread_bps := 1 # 10; dash_tenor_days := 30 |}
      (11691 # 10000) 0 = Return row
    /\ row_sig row = Cheap_Buy_forward
    /\ row_pnl row < 0.
Proof.
  eexists. split; [vm_compute; reflexivity|].
  split; [reflexivity|].
  refine (proj2 (dashboard_cheap_signal_shows_loss
                   {| override_provider := Manual; manual_bps := - 2;
                      dash_threshold_bps := 1; dash_stop_loss_bps := 2;
                      dash_spread_bps := 1 # 10; dash_tenor_days := 30 |}
                   (11691 # 10000) 0 _ _ _ _ _ _ _ _) _).
  - vm_compute. discriminate.
  - reflexivity.
  - vm_compute. discriminate.
  - vm_compute. discriminate.
  - vm_compute. discriminate.
  - vm_compute. reflexivity.
  - reflexivity.
  - reflexivity.
Defined.
